(** * A shallow embedding of the [Fetcher] request pipeline (src/index.ts)

    The class [Fetcher] wraps the platform's [fetch]: it composes a URL,
    merges headers and options, encodes the body, folds two interceptor
    chains, classifies the response and picks a body reader.

    Conventions of the embedding.
    - A JavaScript string is a [string]; one [ascii] stands for one code
      unit, so the embedding covers strings whose code units are below 256.
    - A plain object used as a record of strings ([BaseHeaders],
      [Record<string, string>]) is a [gmap string string]; the object spread
      [{...a, ...b}] is [b ∪ a] (stdpp's union keeps the left operand on a
      shared key, the spread keeps the right one). The per-call [headers]
      are a [HeadersInit], of which only the plain record spreads to
      itself.
    - [url] of a [Request] is the string handed to its constructor. What
      the platform makes of it ([request.url] is the parsed and
      re-serialized form, and a string the platform cannot parse makes the
      constructor throw) is outside the embedding; a statement about [url]
      is a statement about the string the request is constructed with.
    - The platform ([fetch], the body readers of [Response], [FormData],
      [JSON.stringify]) is not part of the repository: it enters as the
      class [Platform].
    - An [async] function is a computation in the monad [Async]: it records
      the calls made to collaborators in order and ends with a value or
      with the thrown value.
    - Requests and responses are values. An interceptor is a function from
      the value it is handed to the value it returns or to what it throws;
      one that updates the object in place and returns it is the function
      that returns the updated value. Of the clone kept for the error
      factory the default factory reads only [url], which is read-only on
      a [Request]. *)

From Stdlib Require Import String Ascii ZArith List Bool Lia DecimalString.
From stdpp Require Import base gmap strings list.

Open Scope string_scope.

(** ** Strings *)

Module JsString.

(** The code units below 256 that ECMAScript's [String.prototype.trim]
    strips: TAB, LF, VT, FF, CR, SP and NBSP (WhiteSpace and
    LineTerminator). *)
Definition isWhiteSpace (c : ascii) : bool :=
  match nat_of_ascii c with
  | 9 | 10 | 11 | 12 | 13 | 32 | 160 => true
  | _ => false
  end.

Fixpoint trimStart (s : string) : string :=
  match s with
  | EmptyString => EmptyString
  | String c s' => if isWhiteSpace c then trimStart s' else s
  end.

Fixpoint trimEnd (s : string) : string :=
  match s with
  | EmptyString => EmptyString
  | String c s' =>
      match trimEnd s' with
      | EmptyString => if isWhiteSpace c then EmptyString else String c EmptyString
      | t => String c t
      end
  end.

(** [s.trim()] *)
Definition trim (s : string) : string := trimEnd (trimStart s).

(** [s.startsWith(p)] *)
Definition startsWith (p s : string) : bool := String.prefix p s.

(** [s.includes(sub)] *)
Fixpoint includes (sub s : string) : bool :=
  String.prefix sub s ||
  match s with
  | EmptyString => false
  | String _ s' => includes sub s'
  end.

(** [s[0]]: the first code unit, [None] for JavaScript's [undefined]. *)
Definition head (s : string) : option ascii :=
  match s with
  | EmptyString => None
  | String c _ => Some c
  end.

(** The last code unit. *)
Fixpoint last (s : string) : option ascii :=
  match s with
  | EmptyString => None
  | String c EmptyString => Some c
  | String _ s' => last s'
  end.

(** Every code unit of [s] is white space. *)
Fixpoint allWhiteSpace (s : string) : bool :=
  match s with
  | EmptyString => true
  | String c s' => isWhiteSpace c && allWhiteSpace s'
  end.

Definition isWhiteSpaceAt (o : option ascii) : bool :=
  match o with
  | Some c => isWhiteSpace c
  | None => false
  end.

End JsString.

(** ** [normalizeUrl] (index.ts 200-212) *)

Definition normalizeUrl (url : string) : string :=
  let result := JsString.trim url in
  if JsString.startsWith "http" result || JsString.startsWith "https" result
  then result
  else if negb (bool_decide (JsString.head result = Some "/"%char))
       then "/" +:+ result
       else result.


(** ** Data model (index.ts 1-16) *)

(** [type Method] *)
Inductive Method := GET | POST | PATCH | PUT | DELETE.

(** The three body-reading operations of a [Response] that [action] uses. *)
Inductive Reader := Blob | Text | Json.

(** Whether a TypeScript parameter is declared with [?]. *)
Inductive Arity := Required | Optional.

Record Param := { param_name : string; param_arity : Arity }.

(** The parameter lists of the five public verb methods, as declared at
    index.ts 71, 78, 86, 94 and 102. *)
Definition signature (m : Method) : list Param :=
  match m with
  | GET =>
      [ {| param_name := "url"; param_arity := Required |};
        {| param_name := "options"; param_arity := Optional |} ]
  | POST | PATCH | PUT | DELETE =>
      [ {| param_name := "url"; param_arity := Required |};
        {| param_name := "data"; param_arity := Required |};
        {| param_name := "options"; param_arity := Optional |} ]
  end.

(** The declared arity of the parameter called [n], if the method has one. *)
Definition arity_of (m : Method) (n : string) : option Arity :=
  param_arity <$> List.find (fun p => bool_decide (param_name p = n)) (signature m).

(** [class FetcherError]: the two fields its constructor stores. *)
Record FetcherError := { err_url : string; err_statusCode : Z }.

(** A platform [Response], as far as the pipeline looks at it: its status,
    the [get] of its [Headers] ([None] for JavaScript's [null]) and its
    unread body. *)
Record Response := {
  status : Z;
  headers_get : string → option string;
  resp_body : string
}.

(** [response.ok], which the Fetch standard defines from the status: a
    status in the range 200 to 299. *)
Definition ok (r : Response) : bool :=
  (200 <=? status r)%Z && (status r <=? 299)%Z.

(** [o?.includes(sub)]: [undefined], hence falsy, on [null]. *)
Definition includes_opt (sub : string) (o : option string) : bool :=
  match o with
  | Some s => JsString.includes sub s
  | None => false
  end.

(** The reader chosen at index.ts 153-169. *)
Definition reader_of (response : Response) : Reader :=
  let disposition := headers_get response "Content-Disposition" in
  let contentType := headers_get response "Content-Type" in
  if includes_opt "attachment" disposition then Blob
  else if includes_opt "text/" contentType then Text
  else if includes_opt "image/" contentType
          || includes_opt "audio/" contentType
          || includes_opt "video/" contentType
          || includes_opt "application/vnd" contentType
          || bool_decide (contentType = Some "application/octet-stream")
          || bool_decide (contentType = Some "application/zip")
       then Blob
       else Json.

(** [HeadersInit], the type of the [headers] member of [RequestInit]: a
    plain record of strings, an array of name-value pairs, or a [Headers]
    instance (given here by its entries). *)
Inductive HeadersInit :=
| HeadersRecord (record : gmap string string)
| HeadersPairs (pairs : list (string * string))
| HeadersInstance (entries : list (string * string)).

(** The array index [i] as a property key. *)
Definition indexKey (i : nat) : string := NilZero.string_of_uint (Nat.to_uint i).

(** [{...h}] for the per-call [headers], which may be [undefined]: the own
    enumerable properties of the value. A record spreads to itself. An
    array of pairs spreads to its indices, each holding a pair, which reads
    as [name,value] wherever a string is wanted. A [Headers] instance
    keeps its entries out of its own properties and spreads to nothing. *)
Definition spreadHeaders (h : option HeadersInit) : gmap string string :=
  match h with
  | None => ∅
  | Some (HeadersRecord record) => record
  | Some (HeadersPairs pairs) =>
      list_to_map (imap (fun i kv => (indexKey i, fst kv +:+ "," +:+ snd kv)) pairs)
  | Some (HeadersInstance _) => ∅
  end.

Section Pipeline.

(** JavaScript values that pass through the pipeline untouched (request
    data, option values, decoded bodies) and values thrown by
    collaborators. *)
Context {JsValue Exn : Type}.

(** [type Options = Omit<RequestInit, "method" | "body">]: the optional
    [headers] member and the other members by name. *)
Record Options := {
  opt_headers : option HeadersInit;
  opt_settings : gmap string JsValue
}.

(** [{}] and [{...a, ...b}] at type [Options]. *)
Definition noOptions : Options :=
  {| opt_headers := None; opt_settings := ∅ |}.

Definition spreadOptions (a b : Options) : Options :=
  {| opt_headers := match opt_headers b with
                    | Some h => Some h
                    | None => opt_headers a
                    end;
     opt_settings := opt_settings b ∪ opt_settings a |}.

(** [{...o}] where [o] may be [undefined]. *)
Definition spreadOptional (o : option Options) : Options :=
  match o with
  | Some o => spreadOptions noOptions o
  | None => noOptions
  end.

(** [type ActionParams = Options & { method: Method; body?: object }];
    an absent [body] reads as [undefined]. *)
Record ActionParams := {
  ap_method : Method;
  ap_body : JsValue;
  ap_rest : Options
}.

(** A platform [Request], given by what it was constructed from: the URL
    string and the members of the init object. *)
Record Request := {
  url : string;
  method : Method;
  req_headers : gmap string string;
  req_settings : gmap string JsValue;
  body : JsValue
}.

(** [request.clone()] *)
Definition clone (r : Request) : Request := r.

(** The argument of a response interceptor. *)
Record Ctx := { ctx_request : Request; ctx_response : Response }.

(** How a call to a collaborator ends once awaited. *)
Inductive Completion (A : Type) :=
| Normal (a : A)
| Throws (x : Exn).
Global Arguments Normal {A} a.
Global Arguments Throws {A} x.

(** [type InterceptorHandler<T> = (param: T) => T | Promise<T>]; the
    pipeline awaits the result, so both forms complete the same way. *)
Definition InterceptorHandler (T : Type) : Type := T → Completion T.

(** The platform the class runs on: [undefined]; [body instanceof FormData]
    (the guard [typeof FormData !== "undefined"] only keeps the reference
    to the global from throwing: where the global is missing no value is
    an instance of it, and the test is [false] on every value);
    [JSON.stringify]; the transport [fetch]; and the body readers
    [blob()], [text()] and [json()] of a [Response]. *)
Class Platform := {
  undefined : JsValue;
  instanceofFormData : JsValue → bool;
  JSON_stringify : JsValue → JsValue;
  fetch : Request → Completion Response;
  read : Reader → Response → Completion JsValue
}.

Context {platform : Platform}.

(** What a call fails with: the value made by the error factory, or a
    value thrown by a collaborator, passed on as it is. *)
Inductive Rejection :=
| FromFactory (e : FetcherError)
| Foreign (x : Exn).

(** The calls that leave the pipeline, in the order they are made; the
    interceptors carry their position in their list. *)
Inductive Event :=
| CallRequestInterceptor (i : nat) (arg : Request)
| CallFetch (request : Request)
| CallResponseInterceptor (i : nat) (arg : Ctx)
| CallErrorFactory (response : Response) (request : Request)
| CallReader (k : Reader) (response : Response).

Inductive Settled (A : Type) :=
| Fulfilled (a : A)
| Rejected (r : Rejection).
Global Arguments Fulfilled {A} a.
Global Arguments Rejected {A} r.

(** An awaited asynchronous computation: the calls it made and how it
    settled. *)
Definition Async (A : Type) : Type := list Event * Settled A.

Definition ret {A} (a : A) : Async A := ([], Fulfilled a).

Definition throw {A} (r : Rejection) : Async A := ([], Rejected r).

Definition bind {A B} (m : Async A) (k : A → Async B) : Async B :=
  match m with
  | (log, Fulfilled a) => let '(log', s) := k a in ((log ++ log')%list, s)
  | (log, Rejected r) => (log, Rejected r)
  end.

(** [await c] for a call [c] to a collaborator, recorded as [ev]. *)
Definition await {A} (ev : Event) (c : Completion A) : Async A :=
  ([ev], match c with
         | Normal a => Fulfilled a
         | Throws x => Rejected (Foreign x)
         end).

Definition calls {A} (m : Async A) : list Event := fst m.
Definition outcome {A} (m : Async A) : Settled A := snd m.

Local Notation "x ⇐ m ; k" := (bind m (fun x => k))
  (at level 100, m at next level, right associativity).

(** [class Fetcher] (index.ts 18-34) *)
Record Fetcher := {
  requestInterceptors : list (InterceptorHandler Request);
  responseInterceptors : list (InterceptorHandler Ctx);
  baseUrl : string;
  baseHeaders : gmap string string;
  baseOptions : Options;
  baseThrower : Response → Request → FetcherError
}.

(** The default [baseThrower] (index.ts 27-34). *)
Definition defaultThrower (response : Response) (request : Request) : FetcherError :=
  let statusCode := status response in
  {| err_url := url request; err_statusCode := statusCode |}.

(** The constructor's optional argument. *)
Record FetcherConfig := {
  cfg_baseUrl : option string;
  cfg_baseHeaders : option (gmap string string);
  cfg_baseOptions : option Options;
  cfg_baseError : option (Response → Request → FetcherError)
}.

(** [constructor] (index.ts 36-59); the empty string is falsy, so a
    configured [baseUrl] of [""] leaves the initial [""]. *)
Definition new_Fetcher (options : option FetcherConfig) : Fetcher :=
  let cfg := default {| cfg_baseUrl := None; cfg_baseHeaders := None;
                        cfg_baseOptions := None; cfg_baseError := None |} options in
  {| requestInterceptors := [];
     responseInterceptors := [];
     baseUrl := match cfg_baseUrl cfg with
                | Some u => if bool_decide (u = "") then "" else u
                | None => ""
                end;
     baseHeaders := default ∅ (cfg_baseHeaders cfg);
     baseOptions := default noOptions (cfg_baseOptions cfg);
     baseThrower := default defaultThrower (cfg_baseError cfg) |}.

(** [addRequestInterceptor], [addResponseInterceptor] (index.ts 61-69):
    [push] appends. *)
Definition addRequestInterceptor (this : Fetcher)
    (handler : InterceptorHandler Request) : Fetcher :=
  {| requestInterceptors := (requestInterceptors this ++ [handler])%list;
     responseInterceptors := responseInterceptors this;
     baseUrl := baseUrl this;
     baseHeaders := baseHeaders this;
     baseOptions := baseOptions this;
     baseThrower := baseThrower this |}.

Definition addResponseInterceptor (this : Fetcher)
    (handler : InterceptorHandler Ctx) : Fetcher :=
  {| requestInterceptors := requestInterceptors this;
     responseInterceptors := (responseInterceptors this ++ [handler])%list;
     baseUrl := baseUrl this;
     baseHeaders := baseHeaders this;
     baseOptions := baseOptions this;
     baseThrower := baseThrower this |}.

(** The loop of [requestHandler] (index.ts 175-177) from position [i]. *)
Fixpoint requestLoop (i : nat) (interceptors : list (InterceptorHandler Request))
    (result : Request) : Async Request :=
  match interceptors with
  | [] => ret result
  | interceptor :: rest =>
      result' ⇐ await (CallRequestInterceptor i result) (interceptor result);
      requestLoop (S i) rest result'
  end.

(** [requestHandler] (index.ts 172-180) *)
Definition requestHandler (this : Fetcher) (request : Request) : Async Request :=
  requestLoop 0 (requestInterceptors this) request.

(** The loop of [responseHandler] (index.ts 193-195) from position [i]. *)
Fixpoint responseLoop (i : nat) (interceptors : list (InterceptorHandler Ctx))
    (ctx : Ctx) : Async Ctx :=
  match interceptors with
  | [] => ret ctx
  | interceptor :: rest =>
      ctx' ⇐ await (CallResponseInterceptor i ctx) (interceptor ctx);
      responseLoop (S i) rest ctx'
  end.

(** [responseHandler] (index.ts 182-198); [response] is the pending
    result of [fetch]. *)
Definition responseHandler (this : Fetcher) (response : Async Response)
    (request : Request) : Async Response :=
  newResponse ⇐ response;
  ctx ⇐ responseLoop 0 (responseInterceptors this)
        {| ctx_request := request; ctx_response := newResponse |};
  ret (ctx_response ctx).

(** The local [headers] of [action] when the request is constructed
    (index.ts 115-118 and 125-127). *)
Definition mergedHeaders (this : Fetcher) (params : ActionParams) : gmap string string :=
  let isFormData := instanceofFormData (ap_body params) in
  let headers := spreadHeaders (opt_headers (ap_rest params)) ∪ baseHeaders this in
  if isFormData then delete "Content-Type" headers else headers.

(** The local [options] of [action] (index.ts 120-123). *)
Definition mergedOptions (this : Fetcher) (params : ActionParams) : Options :=
  spreadOptions (baseOptions this) (ap_rest params).

(** The local [rawRequest] of [action] (index.ts 129-138): in the init
    object [method], [headers] and [body] come after [...options]. *)
Definition rawRequest (this : Fetcher) (url : string) (params : ActionParams) : Request :=
  let headers := mergedHeaders this params in
  let options := mergedOptions this params in
  let normalizedUrl := normalizeUrl (baseUrl this +:+ url) in
  {| url := normalizedUrl;
     method := ap_method params;
     req_headers := headers;
     req_settings := opt_settings options;
     body := if bool_decide (headers !! "Content-Type" = Some "application/json")
             then JSON_stringify (ap_body params)
             else ap_body params |}.

(** The rest of [action] from the success check on (index.ts 149-169). *)
Definition settle (this : Fetcher) (response : Response) (reqClone : Request)
    : Async JsValue :=
  if negb (ok response)
  then e ⇐ await (CallErrorFactory response reqClone)
                 (Normal (baseThrower this response reqClone));
       throw (FromFactory e)
  else let k := reader_of response in
       await (CallReader k response) (read k response).

(** [action] (index.ts 110-170) *)
Definition action (this : Fetcher) (url : string) (params : ActionParams)
    : Async JsValue :=
  request ⇐ requestHandler this (rawRequest this url params);
  let reqClone := clone request in
  response ⇐ responseHandler this (await (CallFetch request) (fetch request)) reqClone;
  settle this response reqClone.

(** The verb methods (index.ts 71-108). *)
Definition get (this : Fetcher) (url : string) (options : option Options) :=
  action this url
    {| ap_method := GET; ap_body := undefined; ap_rest := spreadOptional options |}.

Definition post (this : Fetcher) (url : string) (data : JsValue)
    (options : option Options) :=
  action this url
    {| ap_method := POST; ap_body := data; ap_rest := spreadOptional options |}.

Definition patch (this : Fetcher) (url : string) (data : JsValue)
    (options : option Options) :=
  action this url
    {| ap_method := PATCH; ap_body := data; ap_rest := spreadOptional options |}.

Definition put (this : Fetcher) (url : string) (data : JsValue)
    (options : option Options) :=
  action this url
    {| ap_method := PUT; ap_body := data; ap_rest := spreadOptional options |}.

Definition delete_ (this : Fetcher) (url : string) (data : JsValue)
    (options : option Options) :=
  action this url
    {| ap_method := DELETE; ap_body := data; ap_rest := spreadOptional options |}.

(** The specification's reading of an interceptor chain: a left fold over
    the list, paired with the positions, that feeds each handler the
    awaited output of the one before it. [mk] names the recorded call. *)
Definition indexed {T} (l : list T) : list (nat * T) :=
  combine (seq 0 (length l)) l.

Definition foldStep {T} (mk : nat → T → Event)
    (acc : Async T) (ih : nat * InterceptorHandler T) : Async T :=
  x ⇐ acc; await (mk (fst ih) x) (snd ih x).

Definition foldChain {T} (mk : nat → T → Event)
    (interceptors : list (InterceptorHandler T)) (x : T) : Async T :=
  fold_left (foldStep mk) (indexed interceptors) (ret x).

End Pipeline.

(** ** The specification's vocabulary

    Definitions that follow the words of the specification; the theorems
    below compare them with the definitions taken from the code. *)

Module Spec.

(** [s] starts with [p]. *)
Definition beginsWith (p s : string) : Prop := ∃ rest, s = p +:+ rest.

(** [s] contains [sub]. *)
Definition contains (sub s : string) : Prop :=
  ∃ before after, s = before +:+ sub +:+ after.

(** The header is present and its value contains [sub]. *)
Definition headerContains (sub : string) (o : option string) : Prop :=
  ∃ s, o = Some s ∧ contains sub s.

(** "starts with an http/https scheme": the scheme of a URL is its name
    followed by a colon. *)
Definition startsWithScheme (s : string) : Prop :=
  beginsWith "http:" s ∨ beginsWith "https:" s.

(** The per-call headers are absent or a plain record, whose entries are
    [h]. *)
Definition givenAsRecord (o : option HeadersInit) (h : gmap string string) : Prop :=
  (o = None ∧ h = ∅) ∨ o = Some (HeadersRecord h).

(** [t] is [s] without its leading and trailing white space. *)
Definition trimmed (s t : string) : Prop :=
  ∃ l r, s = l +:+ t +:+ r
    ∧ JsString.allWhiteSpace l = true
    ∧ JsString.allWhiteSpace r = true
    ∧ JsString.isWhiteSpaceAt (JsString.head t) = false
    ∧ JsString.isWhiteSpaceAt (JsString.last t) = false.

(** The binary content-type families of the third rule. *)
Definition binaryFamily (contentType : option string) : Prop :=
  headerContains "image/" contentType
  ∨ headerContains "audio/" contentType
  ∨ headerContains "video/" contentType
  ∨ headerContains "application/vnd" contentType
  ∨ contentType = Some "application/octet-stream"
  ∨ contentType = Some "application/zip".

(** The decoding precedence, one rule per line of the specification;
    each rule applies only when the ones before it do not. *)
Inductive decodesAs (disposition contentType : option string) : Reader → Prop :=
| attachment_blob :
    headerContains "attachment" disposition →
    decodesAs disposition contentType Blob
| text_text :
    ¬ headerContains "attachment" disposition →
    headerContains "text/" contentType →
    decodesAs disposition contentType Text
| binary_blob :
    ¬ headerContains "attachment" disposition →
    ¬ headerContains "text/" contentType →
    binaryFamily contentType →
    decodesAs disposition contentType Blob
| otherwise_json :
    ¬ headerContains "attachment" disposition →
    ¬ headerContains "text/" contentType →
    ¬ binaryFamily contentType →
    decodesAs disposition contentType Json.

(** A request interceptor that leaves the URL alone, as one that only sets
    headers does. *)
Definition keepsUrl {JsValue Exn : Type}
    (h : @InterceptorHandler Exn (@Request JsValue)) : Prop :=
  ∀ r r', h r = Normal r' → url r' = url r.

(** The status is outside the success range 200-299. *)
Definition nonSuccess (r : Response) : Prop :=
  (status r < 200 ∨ 299 < status r)%Z.

End Spec.

(** Classifiers of the recorded calls. *)
Definition isReaderCall {JsValue : Type} (e : @Event JsValue) : bool :=
  match e with
  | CallReader _ _ => true
  | _ => false
  end.

Definition isFetchCall {JsValue : Type} (e : @Event JsValue) : bool :=
  match e with
  | CallFetch _ => true
  | _ => false
  end.

Definition isFactoryCall {JsValue : Type} (e : @Event JsValue) : bool :=
  match e with
  | CallErrorFactory _ _ => true
  | _ => false
  end.

Definition isResponseInterceptorCall {JsValue : Type} (e : @Event JsValue) : bool :=
  match e with
  | CallResponseInterceptor _ _ => true
  | _ => false
  end.

Definition isRequestInterceptorCall {JsValue : Type} (e : @Event JsValue) : bool :=
  match e with
  | CallRequestInterceptor _ _ => true
  | _ => false
  end.

(** What each handler of a list is handed when the list is gone through
    once from the front, every handler receiving what the one before it
    returned, up to and including the first one that throws. *)
Fixpoint handed {Exn T : Type} (handlers : list (@InterceptorHandler Exn T)) (x : T)
    : list T :=
  match handlers with
  | [] => []
  | h :: rest =>
      x :: match h x with
           | Normal y => handed rest y
           | Throws _ => []
           end
  end.

(** ** A concrete platform, for evaluating the pipeline *)

Module Demo.

Inductive Value :=
| VUndefined
| VString (s : string)
| VObject (fields : list (string * string))
| VFormData (entries : list (string * string))
| VJsonText (source : Value)
| VDecoded (k : Reader) (payload : string).

Definition isFormData (v : Value) : bool :=
  match v with
  | VFormData _ => true
  | _ => false
  end.

(** [JSON.stringify(undefined)] is [undefined]. *)
Definition stringify (v : Value) : Value :=
  match v with
  | VUndefined => VUndefined
  | _ => VJsonText v
  end.

Definition noHeaders : string → option string := fun _ => None.

Definition notFound : Response :=
  {| status := 404; headers_get := noHeaders; resp_body := "Not Found" |}.

Definition jsonOk : Response :=
  {| status := 200;
     headers_get := fun n => if bool_decide (n = "Content-Type")
                             then Some "application/json" else None;
     resp_body := "{}" |}.

Definition attachmentOnly : Response :=
  {| status := 200;
     headers_get := fun n => if bool_decide (n = "Content-Disposition")
                             then Some "attachment; filename=report" else None;
     resp_body := "bytes" |}.

Definition attachmentJson : Response :=
  {| status := 200;
     headers_get := fun n => if bool_decide (n = "Content-Disposition")
                             then Some "attachment"
                             else if bool_decide (n = "Content-Type")
                                  then Some "application/json" else None;
     resp_body := "{}" |}.

(** A transport that answers 404 under [/missing] and 200 elsewhere. *)
Definition transport (r : @Request Value) : @Completion string Response :=
  if JsString.includes "/missing" (url r) then Normal notFound else Normal jsonOk.

Definition alwaysAttachment (r : @Request Value) : @Completion string Response :=
  Normal attachmentOnly.

Definition readBody (k : Reader) (r : Response) : @Completion string Value :=
  Normal (VDecoded k (resp_body r)).

Definition client : @Fetcher Value string :=
  new_Fetcher (Some {| cfg_baseUrl := Some "http://localhost";
                       cfg_baseHeaders := None;
                       cfg_baseOptions := None;
                       cfg_baseError := None |}).

(** A response interceptor that replaces every response by a 200. *)
Definition recover : InterceptorHandler (Exn := string) (@Ctx Value) :=
  fun ctx => Normal {| ctx_request := ctx_request ctx; ctx_response := jsonOk |}.

(** A response interceptor that replaces every response by a 404. *)
Definition spoil : InterceptorHandler (Exn := string) (@Ctx Value) :=
  fun ctx => Normal {| ctx_request := ctx_request ctx; ctx_response := notFound |}.

(** A request interceptor that sets a header. *)
Definition tag : InterceptorHandler (Exn := string) (@Request Value) :=
  fun r => Normal {| url := url r; method := method r;
                     req_headers := <["X-Test-Header" := "interceptor-works"]> (req_headers r);
                     req_settings := req_settings r; body := body r |}.

Definition params (m : Method) (data : Value) (h : gmap string string) : @ActionParams Value :=
  {| ap_method := m; ap_body := data;
     ap_rest := {| opt_headers := Some (HeadersRecord h); opt_settings := ∅ |} |}.

Definition platform : @Platform Value string :=
  {| undefined := VUndefined;
     instanceofFormData := isFormData;
     JSON_stringify := stringify;
     fetch := transport;
     read := readBody |}.

(** The same platform behind a server that answers every request with an
    attachment that names no content type. *)
Definition attachmentPlatform : @Platform Value string :=
  {| undefined := VUndefined;
     instanceofFormData := isFormData;
     JSON_stringify := stringify;
     fetch := alwaysAttachment;
     read := readBody |}.

Definition run := action (platform := platform).

Definition build := rawRequest (platform := platform).

(** The parameters that [get(url)] hands to [action]. *)
Definition getParams : @ActionParams Value :=
  {| ap_method := GET; ap_body := VUndefined; ap_rest := spreadOptional None |}.

Definition plainOk : Response :=
  {| status := 200; headers_get := noHeaders; resp_body := "{}" |}.

Definition payload : Value := VObject [("name", "test")].

Definition form : Value := VFormData [("file", "report.pdf")].

(** A client whose base headers announce JSON, as in the repository's
    POST test. *)
Definition jsonClient : @Fetcher Value string :=
  new_Fetcher (Some {| cfg_baseUrl := Some "http://localhost";
                       cfg_baseHeaders := Some {[ "Content-Type" := "application/json" ]};
                       cfg_baseOptions := None;
                       cfg_baseError := None |}).

Definition keyedClient : @Fetcher Value string :=
  new_Fetcher (Some {| cfg_baseUrl := Some "http://localhost";
                       cfg_baseHeaders :=
                         Some {[ "Content-Type" := "application/json";
                                 "X-Api-Key" := "secret-key" ]};
                       cfg_baseOptions :=
                         Some {| opt_headers := None;
                                 opt_settings := {[ "cache" := VString "no-store";
                                                    "mode" := VString "cors" ]} |};
                       cfg_baseError := None |}).

(** Per-call options that collide with [keyedClient] on [cache]. *)
Definition override : @ActionParams Value :=
  {| ap_method := POST; ap_body := payload;
     ap_rest := {| opt_headers := Some (HeadersRecord {[ "X-Api-Key" := "per-call";
                                                         "Accept" := "text/plain" ]});
                   opt_settings := {[ "cache" := VString "reload" ]} |} |}.

Definition upload : @ActionParams Value :=
  {| ap_method := POST; ap_body := form; ap_rest := noOptions |}.

Definition recovering : @Fetcher Value string := addResponseInterceptor client recover.

Definition tagged : @Fetcher Value string := addRequestInterceptor client tag.

End Demo.

(** ** Failing collaborators and further clients, for evaluating the
    error paths of the pipeline *)

Module Scenario.

(** A request interceptor that throws. *)
Definition refuse : @InterceptorHandler string (@Request Demo.Value) :=
  fun _ => Throws "denied".

(** A response interceptor that throws. *)
Definition choke : @InterceptorHandler string (@Ctx Demo.Value) :=
  fun _ => Throws "boom".

(** Interceptors that hand back what they are given, as a logger does. *)
Definition passRequest : @InterceptorHandler string (@Request Demo.Value) :=
  fun r => Normal r.

Definition passCtx : @InterceptorHandler string (@Ctx Demo.Value) :=
  fun c => Normal c.

(** A transport whose [fetch] rejects. *)
Definition unreachable (r : @Request Demo.Value) : @Completion string Response :=
  Throws "network down".

Definition offline : @Platform Demo.Value string :=
  {| undefined := Demo.VUndefined;
     instanceofFormData := Demo.isFormData;
     JSON_stringify := Demo.stringify;
     fetch := unreachable;
     read := Demo.readBody |}.

(** [tag], then [refuse], then [tag] again. *)
Definition guarded : @Fetcher Demo.Value string :=
  addRequestInterceptor
    (addRequestInterceptor (addRequestInterceptor Demo.client Demo.tag) refuse)
    Demo.tag.

(** [spoil], then [choke], then [recover]. *)
Definition choking : @Fetcher Demo.Value string :=
  addResponseInterceptor
    (addResponseInterceptor (addResponseInterceptor Demo.client Demo.spoil) choke)
    Demo.recover.

(** One interceptor of each kind. *)
Definition both : @Fetcher Demo.Value string :=
  addResponseInterceptor (addRequestInterceptor Demo.client Demo.tag) Demo.recover.

(** An error factory in the manner of the repository's [CustomError]. *)
Definition customError (res : Response) (req : @Request Demo.Value) : FetcherError :=
  {| err_url := "custom:" +:+ url req; err_statusCode := (status res + 1000)%Z |}.

Definition customConfig : @FetcherConfig Demo.Value :=
  {| cfg_baseUrl := Some "http://localhost";
     cfg_baseHeaders := None;
     cfg_baseOptions := None;
     cfg_baseError := Some customError |}.

(** [keyedClient] with a [headers] member inside its [baseOptions]. *)
Definition misplaced : @Fetcher Demo.Value string :=
  {| requestInterceptors := [];
     responseInterceptors := [];
     baseUrl := baseUrl Demo.keyedClient;
     baseHeaders := baseHeaders Demo.keyedClient;
     baseOptions := {| opt_headers :=
                         Some (HeadersRecord {[ "Authorization" := "Bearer t" ]});
                       opt_settings := opt_settings (baseOptions Demo.keyedClient) |};
     baseThrower := defaultThrower |}.

(** A request interceptor that substitutes a request for another host. *)
Definition redirect : @InterceptorHandler string (@Request Demo.Value) :=
  fun r => Normal {| url := "http://elsewhere/x"; method := method r;
                     req_headers := req_headers r;
                     req_settings := req_settings r; body := body r |}.

Definition redirected : @Fetcher Demo.Value string :=
  addRequestInterceptor Demo.client redirect.

(** Per-call headers given as a [Headers] instance and as pairs. *)
Definition viaInstance : @ActionParams Demo.Value :=
  {| ap_method := POST; ap_body := Demo.payload;
     ap_rest := {| opt_headers := Some (HeadersInstance [("X-Api-Key", "per-call");
                                                         ("Accept", "text/plain")]);
                   opt_settings := ∅ |} |}.

Definition viaPairs : @ActionParams Demo.Value :=
  {| ap_method := POST; ap_body := Demo.payload;
     ap_rest := {| opt_headers := Some (HeadersPairs [("X-Api-Key", "per-call");
                                                      ("Accept", "text/plain")]);
                   opt_settings := ∅ |} |}.

End Scenario.

(** ** Facts about strings *)

Module JsStringFacts.
Import JsString.

Lemma append_empty (s : string) : "" +:+ s = s.
Proof. reflexivity. Qed.

Lemma append_cons (c : ascii) (a b : string) :
  String c a +:+ b = String c (a +:+ b).
Proof. reflexivity. Qed.

Lemma prefix_beginsWith (p s : string) :
  String.prefix p s = true ↔ Spec.beginsWith p s.
Proof.
  revert s. induction p as [|c p IH]; intros s.
  - split; [intros _; by exists s | by destruct s].
  - destruct s as [|d s]; cbn [String.prefix].
    + split; [done | intros [rest H]; discriminate H].
    + destruct (ascii_dec c d) as [->|Hne].
      * rewrite IH. split; intros [rest H]; exists rest.
        -- rewrite append_cons. by rewrite H.
        -- rewrite append_cons in H. by injection H.
      * split; [done | intros [rest H]; rewrite append_cons in H; injection H; congruence].
Qed.

Lemma startsWith_false (p s : string) :
  startsWith p s = false ↔ ¬ Spec.beginsWith p s.
Proof.
  unfold startsWith. rewrite <- prefix_beginsWith.
  destruct (String.prefix p s); split; congruence.
Qed.

Lemma includes_contains (sub s : string) :
  includes sub s = true ↔ Spec.contains sub s.
Proof.
  induction s as [|c s IH]; cbn [includes].
  - rewrite orb_false_r, prefix_beginsWith. split.
    + intros [rest H]. by exists "", rest.
    + intros [before [after H]].
      destruct before; [by exists after | discriminate H].
  - rewrite orb_true_iff, prefix_beginsWith, IH. split.
    + intros [[rest H] | [before [after H]]].
      * by exists "", rest.
      * exists (String c before), after. rewrite append_cons. by rewrite H.
    + intros [before [after H]]. destruct before as [|d before].
      * left. by exists after.
      * right. rewrite append_cons in H. injection H as _ H.
        by exists before, after.
Qed.

Lemma includes_opt_headerContains (sub : string) (o : option string) :
  includes_opt sub o = true ↔ Spec.headerContains sub o.
Proof.
  destruct o as [s|]; cbn [includes_opt].
  - rewrite includes_contains. split.
    + intros H. by exists s.
    + intros [s' [[= <-] H]]. exact H.
  - split; [done | intros [s [H _]]; discriminate H].
Qed.

Lemma includes_opt_false (sub : string) (o : option string) :
  includes_opt sub o = false ↔ ¬ Spec.headerContains sub o.
Proof.
  rewrite <- includes_opt_headerContains.
  destruct (includes_opt sub o); split; congruence.
Qed.

Lemma trimStart_split (s : string) :
  ∃ l, s = l +:+ trimStart s
    ∧ allWhiteSpace l = true
    ∧ isWhiteSpaceAt (head (trimStart s)) = false.
Proof.
  induction s as [|c s (l & Hs & Hl & Hh)]; cbn [trimStart].
  - by exists "".
  - destruct (isWhiteSpace c) eqn:Hc.
    + exists (String c l). rewrite append_cons, <- Hs.
      cbn [allWhiteSpace]. by rewrite Hc, Hl.
    + exists "". cbn [allWhiteSpace head isWhiteSpaceAt]. by rewrite Hc.
Qed.

Lemma trimEnd_split (s : string) :
  ∃ r, s = trimEnd s +:+ r
    ∧ allWhiteSpace r = true
    ∧ isWhiteSpaceAt (last (trimEnd s)) = false.
Proof.
  induction s as [|c s (r & Hs & Hr & Hlast)]; cbn [trimEnd].
  - by exists "".
  - destruct (trimEnd s) as [|d t] eqn:Ht.
    + rewrite append_empty in Hs. subst r.
      destruct (isWhiteSpace c) eqn:Hc.
      * exists (String c s). rewrite append_empty.
        cbn [allWhiteSpace]. by rewrite Hc, Hr.
      * exists s. rewrite append_cons, append_empty.
        cbn [last isWhiteSpaceAt]. by rewrite Hc.
    + exists r. rewrite append_cons, <- Hs. split; [done|]. split; [done|].
      exact Hlast.
Qed.

Lemma trimEnd_head (s : string) :
  isWhiteSpaceAt (head s) = false → head (trimEnd s) = head s.
Proof.
  destruct s as [|c s]; cbn [head trimEnd isWhiteSpaceAt]; [done|].
  intros Hc. destruct (trimEnd s); [by rewrite Hc | done].
Qed.

Lemma trim_trimmed (s : string) : Spec.trimmed s (trim s).
Proof.
  unfold trim.
  destruct (trimStart_split s) as (l & Hs & Hl & Hh).
  destruct (trimEnd_split (trimStart s)) as (r & Ht & Hr & Hlast).
  exists l, r. split; [by rewrite <- Ht|].
  split; [done|]. split; [done|]. split; [|done].
  by rewrite trimEnd_head.
Qed.

End JsStringFacts.

Lemma scheme_begins_http (s : string) :
  Spec.startsWithScheme s → Spec.beginsWith "http" s.
Proof.
  intros [[rest ->]|[rest ->]]; [by exists (":" +:+ rest) | by exists ("s:" +:+ rest)].
Qed.

Lemma normalizeUrl_http (u : string) :
  Spec.beginsWith "http" (JsString.trim u) → normalizeUrl u = JsString.trim u.
Proof.
  intros H. unfold normalizeUrl. cbv zeta.
  apply JsStringFacts.prefix_beginsWith in H.
  unfold JsString.startsWith. by rewrite H.
Qed.

Lemma normalizeUrl_not_http (u : string) :
  ¬ Spec.beginsWith "http" (JsString.trim u) →
  normalizeUrl u =
    if bool_decide (JsString.head (JsString.trim u) = Some "/"%char)
    then JsString.trim u else "/" +:+ JsString.trim u.
Proof.
  intros H. unfold normalizeUrl. cbv zeta.
  assert (JsString.startsWith "http" (JsString.trim u) = false) as ->.
  { by apply JsStringFacts.startsWith_false. }
  assert (JsString.startsWith "https" (JsString.trim u) = false) as ->.
  { apply JsStringFacts.startsWith_false. intros [rest Hp]. apply H.
    exists ("s" +:+ rest). by rewrite Hp. }
  cbn. by destruct (bool_decide _).
Qed.

(** ** Facts about the pipeline *)

Section PipelineFacts.

Context {JsValue Exn : Type} {platform : @Platform JsValue Exn}.

Local Abbreviation Fetcher := (@Fetcher JsValue Exn).
Local Abbreviation Request := (@Request JsValue).
Local Abbreviation ActionParams := (@ActionParams JsValue).
Local Abbreviation Ctx := (@Ctx JsValue).
Local Abbreviation Event := (@Event JsValue).
Local Abbreviation Async := (@Async JsValue Exn).
Local Abbreviation dispatch request := (await (CallFetch request) (fetch request)).

(** *** The monad *)

Lemma bind_ret_l {A B} (a : A) (k : A → Async B) : bind (ret a) k = k a.
Proof. unfold bind, ret. by destruct (k a). Qed.

Lemma bind_ret_r {A} (m : Async A) : bind m ret = m.
Proof.
  destruct m as [log [a|r]]; unfold bind, ret; [|done].
  by rewrite app_nil_r.
Qed.

Lemma bind_assoc {A B C} (m : Async A) (k : A → Async B) (h : B → Async C) :
  bind (bind m k) h = bind m (fun a => bind (k a) h).
Proof.
  destruct m as [log [a|r]]; unfold bind; [|done].
  destruct (k a) as [log1 [b|r]]; [|done].
  destruct (h b) as [log2 s]. by rewrite app_assoc.
Qed.

Lemma bind_fulfilled {A B} (m : Async A) (k : A → Async B) (a : A) :
  outcome m = Fulfilled a →
  calls (bind m k) = (calls m ++ calls (k a))%list
  ∧ outcome (bind m k) = outcome (k a).
Proof.
  destruct m as [log s]. cbn. intros ->. unfold bind.
  by destruct (k a).
Qed.

Lemma calls_bind {A B} (m : Async A) (k : A → Async B) :
  calls (bind m k)
  = (calls m ++ match outcome m with
                | Fulfilled a => calls (k a)
                | Rejected _ => []
                end)%list.
Proof.
  destruct m as [log [a|r]]; unfold bind; cbn.
  - by destruct (k a).
  - by rewrite app_nil_r.
Qed.

Lemma bind_await_normal {A B} (ev : Event) (a : A) (k : A → Async B) :
  bind (await ev (Normal a)) k = (ev :: calls (k a), outcome (k a)).
Proof. unfold bind, await. by destruct (k a). Qed.

(** *** The two loops *)

Lemma requestLoop_filter (f : Event → bool) i hs (r : Request) :
  (∀ j x, f (CallRequestInterceptor j x) = false) →
  List.filter f (calls (requestLoop (Exn := Exn) i hs r)) = [].
Proof.
  intros Hf. revert i r. induction hs as [|h hs IH]; intros i r; [done|].
  cbn [requestLoop]. destruct (h r) as [r'|x]; unfold await, bind.
  - specialize (IH (S i) r'). destruct (requestLoop (S i) hs r') as [log s].
    cbn in *. by rewrite Hf.
  - cbn. by rewrite Hf.
Qed.

Lemma responseLoop_filter (f : Event → bool) i hs (c : Ctx) :
  (∀ j x, f (CallResponseInterceptor j x) = false) →
  List.filter f (calls (responseLoop (Exn := Exn) i hs c)) = [].
Proof.
  intros Hf. revert i c. induction hs as [|h hs IH]; intros i c; [done|].
  cbn [responseLoop]. destruct (h c) as [c'|x]; unfold await, bind.
  - specialize (IH (S i) c'). destruct (responseLoop (S i) hs c') as [log s].
    cbn in *. by rewrite Hf.
  - cbn. by rewrite Hf.
Qed.

Lemma requestLoop_keepsUrl i hs (r r' : Request) :
  Forall Spec.keepsUrl hs →
  outcome (requestLoop (Exn := Exn) i hs r) = Fulfilled r' →
  url r' = url r.
Proof.
  intros Hall. revert i r. induction Hall as [|h hs Hh _ IH]; intros i r.
  - cbn. by intros [= ->].
  - cbn [requestLoop]. destruct (h r) as [r1|x] eqn:Hr; [|done].
    rewrite bind_await_normal. cbn [outcome snd]. intros Hout.
    rewrite (IH _ _ Hout). by apply Hh.
Qed.

Lemma requestLoop_app i hs1 hs2 (r : Request) :
  requestLoop (Exn := Exn) i (hs1 ++ hs2) r
  = bind (requestLoop i hs1 r) (requestLoop (i + length hs1) hs2).
Proof.
  revert i r. induction hs1 as [|h hs1 IH]; intros i r.
  - cbn [app requestLoop length]. rewrite bind_ret_l. by rewrite Nat.add_0_r.
  - cbn [app requestLoop length]. rewrite bind_assoc.
    destruct (h r) as [r'|x]; [|done].
    rewrite !bind_await_normal, IH.
    by replace (S i + length hs1) with (i + S (length hs1)) by lia.
Qed.

Lemma responseLoop_app i hs1 hs2 (c : Ctx) :
  responseLoop (Exn := Exn) i (hs1 ++ hs2) c
  = bind (responseLoop i hs1 c) (responseLoop (i + length hs1) hs2).
Proof.
  revert i c. induction hs1 as [|h hs1 IH]; intros i c.
  - cbn [app responseLoop length]. rewrite bind_ret_l. by rewrite Nat.add_0_r.
  - cbn [app responseLoop length]. rewrite bind_assoc.
    destruct (h c) as [c'|x]; [|done].
    rewrite !bind_await_normal, IH.
    by replace (S i + length hs1) with (i + S (length hs1)) by lia.
Qed.

(** *** [action], stage by stage *)

Lemma responseHandler_calls (this : Fetcher) (request reqClone : Request) :
  calls (responseHandler this (dispatch request) reqClone)
  = CallFetch request ::
      match fetch request with
      | Normal raw =>
          calls (responseLoop 0 (responseInterceptors this)
                   {| ctx_request := reqClone; ctx_response := raw |})
      | Throws _ => []
      end.
Proof.
  unfold responseHandler. destruct (fetch request) as [raw|x]; [|done].
  rewrite bind_await_normal. cbn [calls fst]. f_equal.
  destruct (responseLoop _ _ _) as [log [ctx|r]]; cbn; [|done].
  by rewrite app_nil_r.
Qed.

Lemma responseHandler_outcome (this : Fetcher) (request reqClone : Request) response :
  outcome (responseHandler this (dispatch request) reqClone) = Fulfilled response ↔
  ∃ raw ctx,
    fetch request = Normal raw
    ∧ outcome (responseLoop 0 (responseInterceptors this)
                 {| ctx_request := reqClone; ctx_response := raw |}) = Fulfilled ctx
    ∧ ctx_response ctx = response.
Proof.
  unfold responseHandler. destruct (fetch request) as [raw|x].
  - rewrite bind_await_normal. cbn [outcome snd].
    destruct (responseLoop 0 _ {| ctx_request := reqClone; ctx_response := raw |})
      as [log [ctx|r]] eqn:E; cbn.
    + split.
      * intros [= <-]. exists raw, ctx. by rewrite E.
      * intros (raw' & ctx' & [= <-] & H & <-). rewrite E in H. cbn in H.
        by injection H as ->.
    + split; [done|]. intros (raw' & ctx' & [= <-] & H & _).
      rewrite E in H. discriminate H.
  - cbn. split; [done|]. intros (raw & ctx & H & _). discriminate H.
Qed.

Lemma responseHandler_outcome_normal (this : Fetcher) (request reqClone : Request) raw :
  fetch request = Normal raw →
  outcome (responseHandler this (dispatch request) reqClone)
  = match outcome (responseLoop 0 (responseInterceptors this)
                     {| ctx_request := reqClone; ctx_response := raw |}) with
    | Fulfilled ctx => Fulfilled (ctx_response ctx)
    | Rejected r => Rejected r
    end.
Proof.
  intros ->. unfold responseHandler. rewrite bind_await_normal. cbn [outcome snd].
  by destruct (responseLoop _ _ _) as [log [ctx|r]].
Qed.

Lemma action_stages (this : Fetcher) u params request response :
  outcome (requestHandler this (rawRequest this u params)) = Fulfilled request →
  outcome (responseHandler this (dispatch request) (clone request)) = Fulfilled response →
  calls (action this u params)
  = (calls (requestHandler this (rawRequest this u params))
     ++ calls (responseHandler this (dispatch request) (clone request))
     ++ calls (settle this response (clone request)))%list
  ∧ outcome (action this u params) = outcome (settle this response (clone request)).
Proof.
  intros Hreq Hresp. unfold action.
  destruct (bind_fulfilled _
    (fun request => bind (responseHandler this (dispatch request) (clone request))
                      (fun response => settle this response (clone request)))
    _ Hreq) as [-> ->].
  destruct (bind_fulfilled _
    (fun response => settle this response (clone request)) _ Hresp) as [-> ->].
  done.
Qed.

Lemma requestHandler_filter (f : Event → bool) (this : Fetcher) (r : Request) :
  (∀ j x, f (CallRequestInterceptor j x) = false) →
  List.filter f (calls (requestHandler this r)) = [].
Proof. apply requestLoop_filter. Qed.

Lemma responseHandler_filter (f : Event → bool) (this : Fetcher)
    (request reqClone : Request) :
  (∀ j x, f (CallResponseInterceptor j x) = false) →
  List.filter f (calls (responseHandler this (dispatch request) reqClone))
  = List.filter f [CallFetch request].
Proof.
  intros Hf. rewrite responseHandler_calls.
  change (CallFetch request :: ?l) with ([CallFetch request] ++ l)%list.
  rewrite List.filter_app.
  destruct (fetch request); [rewrite responseLoop_filter by done|];
    by rewrite app_nil_r.
Qed.

Lemma settle_no_fetch (this : Fetcher) response (reqClone : Request) :
  List.filter isFetchCall (calls (settle this response reqClone)) = [].
Proof. unfold settle. by destruct (ok response). Qed.

(** One send for each call whose request chain completes, and it is made
    with the output of that chain. *)
Lemma action_fetch_calls (this : Fetcher) u params :
  List.filter isFetchCall (calls (action this u params))
  = match outcome (requestHandler this (rawRequest this u params)) with
    | Fulfilled request => [CallFetch request]
    | Rejected _ => []
    end.
Proof.
  unfold action.
  rewrite calls_bind, List.filter_app, requestHandler_filter by done.
  destruct (outcome _) as [request|r]; [|done].
  rewrite calls_bind, List.filter_app, responseHandler_filter by done.
  destruct (outcome _) as [response|r]; [|done].
  by rewrite settle_no_fetch.
Qed.

Lemma nonSuccess_ok (r : Response) : Spec.nonSuccess r ↔ ok r = false.
Proof.
  unfold Spec.nonSuccess, ok. rewrite andb_false_iff, !Z.leb_gt. lia.
Qed.

Lemma settle_failure (this : Fetcher) response (reqClone : Request) :
  ok response = false →
  settle this response reqClone
  = ([CallErrorFactory response reqClone],
     Rejected (FromFactory (baseThrower this response reqClone))).
Proof. intros H. unfold settle. by rewrite H. Qed.

Lemma settle_success (this : Fetcher) response (reqClone : Request) :
  ok response = true →
  settle this response reqClone
  = await (CallReader (reader_of response) response)
          (read (reader_of response) response).
Proof. intros H. unfold settle. by rewrite H. Qed.

(** C1. When the response that leaves the response-interceptor chain has a
    status outside 200-299, the call is rejected with the value the error
    factory returns for that response and the clone of the dispatched
    request; the factory is called once, no body reader is called, and
    the default factory copies the response's status and the clone's URL
    into the error. *)
Theorem non_success_response_fails (this : Fetcher) (u : string)
    (params : ActionParams) (request : Request) (response : Response) :
  outcome (requestHandler this (rawRequest this u params)) = Fulfilled request →
  outcome (responseHandler this (dispatch request) (clone request)) = Fulfilled response →
  Spec.nonSuccess response →
  outcome (action this u params)
    = Rejected (FromFactory (baseThrower this response (clone request)))
  ∧ List.filter isFactoryCall (calls (action this u params))
    = [CallErrorFactory response (clone request)]
  ∧ List.filter isFetchCall (calls (action this u params)) = [CallFetch request]
  ∧ List.filter isReaderCall (calls (action this u params)) = []
  ∧ (baseThrower this = defaultThrower →
     err_statusCode (baseThrower this response (clone request)) = status response
     ∧ err_url (baseThrower this response (clone request)) = url (clone request)).
Proof.
  intros Hreq Hresp Hbad. apply nonSuccess_ok in Hbad.
  destruct (action_stages this u params request response Hreq Hresp) as [Hc Ho].
  rewrite Hc, Ho, settle_failure by done.
  rewrite !List.filter_app.
  rewrite !requestHandler_filter, !responseHandler_filter by done.
  repeat split; try done.
  all: match goal with H : baseThrower _ = _ |- _ => by rewrite H end.
Qed.

(** *** Decoding *)

Lemma binaryFamily_reflect (ct : option string) :
  includes_opt "image/" ct
  || includes_opt "audio/" ct
  || includes_opt "video/" ct
  || includes_opt "application/vnd" ct
  || bool_decide (ct = Some "application/octet-stream")
  || bool_decide (ct = Some "application/zip") = true
  ↔ Spec.binaryFamily ct.
Proof.
  unfold Spec.binaryFamily.
  rewrite !orb_true_iff, !JsStringFacts.includes_opt_headerContains,
    !bool_decide_eq_true.
  tauto.
Qed.

Lemma reader_of_decodesAs (r : Response) :
  Spec.decodesAs (headers_get r "Content-Disposition")
                 (headers_get r "Content-Type") (reader_of r).
Proof.
  unfold reader_of. cbv zeta.
  destruct (includes_opt "attachment" _) eqn:Ha.
  { apply Spec.attachment_blob.
    by apply JsStringFacts.includes_opt_headerContains. }
  apply JsStringFacts.includes_opt_false in Ha.
  destruct (includes_opt "text/" _) eqn:Ht.
  { apply Spec.text_text; [done|].
    by apply JsStringFacts.includes_opt_headerContains. }
  apply JsStringFacts.includes_opt_false in Ht.
  match goal with |- context [if ?b then _ else _] => destruct b eqn:Hb end.
  - apply Spec.binary_blob; [done | done |]. by apply binaryFamily_reflect.
  - apply Spec.otherwise_json; [done | done |].
    rewrite <- binaryFamily_reflect. by rewrite Hb.
Qed.

Lemma decodesAs_functional d ct k k' :
  Spec.decodesAs d ct k → Spec.decodesAs d ct k' → k = k'.
Proof. intros H H'. destruct H; destruct H'; done. Qed.

Lemma reader_of_iff (r : Response) (k : Reader) :
  reader_of r = k ↔
  Spec.decodesAs (headers_get r "Content-Disposition")
                 (headers_get r "Content-Type") k.
Proof.
  split.
  - intros <-. apply reader_of_decodesAs.
  - intros H. exact (decodesAs_functional _ _ _ _ (reader_of_decodesAs r) H).
Qed.

(** C2, amended. A response with a success status is read by exactly one
    reader, chosen by the precedence of the specification: attachment
    disposition, then text, then the binary families, then JSON. An
    attachment with content type application/json is read as a blob. A
    response without a Content-Type header is read as JSON when its
    Content-Disposition does not contain attachment. *)
Theorem decoding_follows_precedence :
  (∀ (this : Fetcher) u params request response,
     outcome (requestHandler this (rawRequest this u params)) = Fulfilled request →
     outcome (responseHandler this (dispatch request) (clone request))
       = Fulfilled response →
     ok response = true →
     ∃ k,
       Spec.decodesAs (headers_get response "Content-Disposition")
                      (headers_get response "Content-Type") k
       ∧ List.filter isReaderCall (calls (action this u params))
         = [CallReader k response]
       ∧ List.filter isFactoryCall (calls (action this u params)) = []
       ∧ outcome (action this u params)
         = outcome (await (CallReader k response : Event) (read k response)))
  ∧ (∀ d ct k k', Spec.decodesAs d ct k → Spec.decodesAs d ct k' → k = k')
  ∧ (∀ r,
       Spec.headerContains "attachment" (headers_get r "Content-Disposition") →
       headers_get r "Content-Type" = Some "application/json" →
       reader_of r = Blob)
  ∧ (∀ r,
       headers_get r "Content-Type" = None →
       ¬ Spec.headerContains "attachment" (headers_get r "Content-Disposition") →
       reader_of r = Json).
Proof.
  split; [|split; [|split]].
  - intros this u params request response Hreq Hresp Hok.
    exists (reader_of response).
    destruct (action_stages this u params request response Hreq Hresp) as [Hc Ho].
    rewrite Hc, Ho, settle_success by done.
    rewrite !List.filter_app.
    rewrite !requestHandler_filter, !responseHandler_filter by done.
    split; [apply reader_of_decodesAs | done].
  - apply decodesAs_functional.
  - intros r Ha _. apply reader_of_iff. by apply Spec.attachment_blob.
  - intros r Hct Ha. apply reader_of_iff. rewrite Hct.
    apply Spec.otherwise_json; [done | |].
    + intros [s [H _]]. discriminate H.
    + intros [H|[H|[H|[H|[H|H]]]]]; try discriminate H;
        destruct H as [s [H _]]; discriminate H.
Qed.

(** *** Building the request *)

(** C3. The request handed to the request chain carries the JSON
    serialization of the data when its [Content-Type] entry is exactly
    [application/json], and the data itself for any other or absent
    value; its headers are the merged headers. *)
Theorem body_serialized_iff_json_content_type (this : Fetcher) (u : string)
    (params : ActionParams) :
  req_headers (rawRequest this u params) = mergedHeaders this params
  ∧ (mergedHeaders this params !! "Content-Type" = Some "application/json" →
     body (rawRequest this u params) = JSON_stringify (ap_body params))
  ∧ (mergedHeaders this params !! "Content-Type" ≠ Some "application/json" →
     body (rawRequest this u params) = ap_body params)
  ∧ action this u params
    = bind (requestHandler this (rawRequest this u params))
        (fun request =>
           bind (responseHandler this (dispatch request) (clone request))
             (fun response => settle this response (clone request))).
Proof.
  split; [done|]. split; [|split; [|done]]; intros H; cbn [rawRequest body].
  - by rewrite bool_decide_eq_true_2.
  - by rewrite bool_decide_eq_false_2.
Qed.

(** C4, amended. The request is constructed with the string that
    [normalizeUrl] returns for [baseUrl + url]: the concatenation without
    its leading and trailing white space, kept as it is when it starts
    with the characters [http] (hence whenever it starts with an http or
    https scheme), given a leading [/] when it starts with neither
    [http] nor [/], and kept when it starts with [/]. The request that is
    sent is the output of the request chain on that request, and carries
    its URL string when the request interceptors leave the URL alone. *)
Theorem url_is_normalized (this : Fetcher) (u : string) (params : ActionParams) :
  let joined := baseUrl this +:+ u in
  let t := JsString.trim joined in
  url (rawRequest this u params) = normalizeUrl joined
  ∧ Spec.trimmed joined t
  ∧ (Spec.startsWithScheme t → normalizeUrl joined = t)
  ∧ (Spec.beginsWith "http" t → normalizeUrl joined = t)
  ∧ (¬ Spec.beginsWith "http" t → ¬ Spec.beginsWith "/" t →
     normalizeUrl joined = "/" +:+ t)
  ∧ (¬ Spec.beginsWith "http" t → Spec.beginsWith "/" t → normalizeUrl joined = t)
  ∧ normalizeUrl "path" = "/path"
  ∧ normalizeUrl "/path" = "/path"
  ∧ normalizeUrl "http://x/path" = "http://x/path"
  ∧ normalizeUrl "  path " = "/path"
  ∧ (∀ request,
       outcome (requestHandler this (rawRequest this u params)) = Fulfilled request →
       List.filter isFetchCall (calls (action this u params)) = [CallFetch request]
       ∧ (Forall Spec.keepsUrl (requestInterceptors this) →
          url request = url (rawRequest this u params))).
Proof.
  intros joined t.
  assert (Hslash : Spec.beginsWith "/" t ↔ JsString.head t = Some "/"%char).
  { split.
    - intros [rest ->]. done.
    - destruct t as [|c t']; [done|]. intros [= ->]. by exists t'. }
  split; [done|]. split; [apply JsStringFacts.trim_trimmed|].
  split; [intros Hs; by apply normalizeUrl_http, scheme_begins_http|].
  split; [apply normalizeUrl_http|].
  split; [|split].
  - intros Hs Hn. rewrite normalizeUrl_not_http by done.
    rewrite bool_decide_eq_false_2; [done|]. intros Hh. by apply Hn, Hslash.
  - intros Hs Hy. rewrite normalizeUrl_not_http by done.
    rewrite bool_decide_eq_true_2; [done|]. by apply Hslash.
  - do 4 (split; [done|]). intros request Hreq.
    rewrite action_fetch_calls, Hreq. split; [done|]. intros Hkeep.
    exact (requestLoop_keepsUrl _ _ _ _ Hkeep Hreq).
Qed.

Lemma union_lookup {V} (a b : gmap string V) (k : string) :
  (a ∪ b) !! k = match a !! k with
                 | Some v => Some v
                 | None => b !! k
                 end.
Proof.
  rewrite lookup_union. destruct (a !! k), (b !! k); done.
Qed.

Lemma mergedHeaders_other (this : Fetcher) (params : ActionParams) (k : string) :
  k ≠ "Content-Type" →
  mergedHeaders this params !! k
  = (spreadHeaders (opt_headers (ap_rest params)) ∪ baseHeaders this) !! k.
Proof.
  intros Hk. unfold mergedHeaders. cbv zeta.
  destruct (instanceofFormData _); [|done].
  by rewrite lookup_delete_ne.
Qed.

Lemma mergedHeaders_form_data (this : Fetcher) (params : ActionParams) :
  instanceofFormData (ap_body params) = true →
  mergedHeaders this params
  = delete "Content-Type"
      (spreadHeaders (opt_headers (ap_rest params)) ∪ baseHeaders this).
Proof. intros H. unfold mergedHeaders. by rewrite H. Qed.

Lemma mergedHeaders_plain (this : Fetcher) (params : ActionParams) :
  instanceofFormData (ap_body params) = false →
  mergedHeaders this params
  = spreadHeaders (opt_headers (ap_rest params)) ∪ baseHeaders this.
Proof. intros H. unfold mergedHeaders. by rewrite H. Qed.

Lemma givenAsRecord_spread (o : option HeadersInit) (h : gmap string string) :
  Spec.givenAsRecord o h → spreadHeaders o = h.
Proof. by intros [[-> ->] | ->]. Qed.

(** C5, amended. When the per-call headers are absent or a plain record
    of strings, the request's headers are the union of [baseHeaders] and
    the per-call headers, the per-call value winning on a shared key,
    except that for a form-data body the key [Content-Type] is absent;
    the request's other options are the union of [baseOptions] and the
    per-call options, the per-call value winning. *)
Theorem headers_and_options_are_merged (this : Fetcher) (u : string)
    (params : ActionParams) (perCall : gmap string string) :
  Spec.givenAsRecord (opt_headers (ap_rest params)) perCall →
  let r := rawRequest this u params in
  (instanceofFormData (ap_body params) = false →
   req_headers r = perCall ∪ baseHeaders this)
  ∧ (∀ k, k ≠ "Content-Type" →
       req_headers r !! k = match perCall !! k with
                            | Some v => Some v
                            | None => baseHeaders this !! k
                            end)
  ∧ (instanceofFormData (ap_body params) = false →
     req_headers r !! "Content-Type"
     = match perCall !! "Content-Type" with
       | Some v => Some v
       | None => baseHeaders this !! "Content-Type"
       end)
  ∧ (instanceofFormData (ap_body params) = true →
     req_headers r !! "Content-Type" = None)
  ∧ req_settings r
    = opt_settings (ap_rest params) ∪ opt_settings (baseOptions this)
  ∧ (∀ k, req_settings r !! k
          = match opt_settings (ap_rest params) !! k with
            | Some v => Some v
            | None => opt_settings (baseOptions this) !! k
            end).
Proof.
  intros Hrecord r. apply givenAsRecord_spread in Hrecord. subst perCall r.
  cbn [rawRequest req_headers req_settings].
  split; [apply mergedHeaders_plain|].
  split. { intros k Hk. by rewrite mergedHeaders_other, union_lookup. }
  split. { intros H. by rewrite mergedHeaders_plain, union_lookup. }
  split. { intros H. rewrite mergedHeaders_form_data by done. apply lookup_delete_eq. }
  split; [done|]. intros k. cbn. apply union_lookup.
Qed.

(** *** The interceptor chains *)

Lemma requestLoop_fold i hs (acc : Async Request) :
  fold_left (foldStep CallRequestInterceptor) (combine (seq i (length hs)) hs) acc
  = bind acc (requestLoop i hs).
Proof.
  revert i acc. induction hs as [|h hs IH]; intros i acc.
  - symmetry. apply bind_ret_r.
  - cbn [length seq combine fold_left]. rewrite IH. unfold foldStep.
    by rewrite bind_assoc.
Qed.

Lemma responseLoop_fold i hs (acc : Async Ctx) :
  fold_left (foldStep CallResponseInterceptor) (combine (seq i (length hs)) hs) acc
  = bind acc (responseLoop i hs).
Proof.
  revert i acc. induction hs as [|h hs IH]; intros i acc.
  - symmetry. apply bind_ret_r.
  - cbn [length seq combine fold_left]. rewrite IH. unfold foldStep.
    by rewrite bind_assoc.
Qed.

Lemma foldChain_request hs (r : Request) :
  foldChain CallRequestInterceptor hs r = requestLoop (Exn := Exn) 0 hs r.
Proof. unfold foldChain, indexed. by rewrite requestLoop_fold, bind_ret_l. Qed.

Lemma foldChain_response hs (c : Ctx) :
  foldChain CallResponseInterceptor hs c = responseLoop (Exn := Exn) 0 hs c.
Proof. unfold foldChain, indexed. by rewrite responseLoop_fold, bind_ret_l. Qed.

(** C6. Each chain is the left fold of its list in registration order: a
    handler is awaited on the output of the one before it, a newly
    registered handler runs last, the send is made once and with the
    output of the request chain, and the success check and the decoding
    are applied to the response that leaves the response chain. *)
Theorem interceptor_chains_are_left_folds :
  (∀ (this : Fetcher) r,
     requestHandler this r
     = foldChain CallRequestInterceptor (requestInterceptors this) r)
  ∧ (∀ (this : Fetcher) (pending : Async Response) request,
       responseHandler this pending request
       = bind pending (fun newResponse =>
           bind (foldChain CallResponseInterceptor (responseInterceptors this)
                   {| ctx_request := request; ctx_response := newResponse |})
                (fun ctx => ret (ctx_response ctx))))
  ∧ (∀ (this : Fetcher) h r,
       requestHandler (addRequestInterceptor this h) r
       = bind (requestHandler this r) (fun x =>
           await (CallRequestInterceptor (length (requestInterceptors this)) x) (h x)))
  ∧ (∀ (this : Fetcher) h c,
       responseLoop 0 (responseInterceptors (addResponseInterceptor this h)) c
       = bind (responseLoop 0 (responseInterceptors this) c) (fun x =>
           await (CallResponseInterceptor (length (responseInterceptors this)) x) (h x)))
  ∧ (∀ (h1 h2 : @InterceptorHandler Exn Request) r r1 r2,
       h1 r = Normal r1 → h2 r1 = Normal r2 →
       requestLoop 0 [h1; h2] r
       = ([CallRequestInterceptor 0 r; CallRequestInterceptor 1 r1], Fulfilled r2))
  ∧ (∀ (this : Fetcher) u params,
       List.filter isFetchCall (calls (action this u params))
       = match outcome (requestHandler this (rawRequest this u params)) with
         | Fulfilled request => [CallFetch request]
         | Rejected _ => []
         end)
  ∧ (∀ (this : Fetcher) u params request response,
       outcome (requestHandler this (rawRequest this u params)) = Fulfilled request →
       outcome (responseHandler this (dispatch request) (clone request))
         = Fulfilled response →
       calls (action this u params)
       = (calls (requestHandler this (rawRequest this u params))
          ++ calls (responseHandler this (dispatch request) (clone request))
          ++ calls (settle this response (clone request)))%list
       ∧ outcome (action this u params)
         = outcome (settle this response (clone request))).
Proof.
  split; [|split; [|split; [|split; [|split; [|split]]]]].
  - intros this r. by rewrite foldChain_request.
  - intros this pending request. unfold responseHandler.
    destruct pending as [log [newResponse|x]]; [|done].
    cbn [bind]. by rewrite foldChain_response.
  - intros this h r. unfold requestHandler. cbn [addRequestInterceptor requestInterceptors].
    rewrite requestLoop_app. cbn [requestLoop].
    destruct (requestLoop 0 (requestInterceptors this) r) as [log [x|e]]; [|done].
    unfold bind at 1 3. rewrite bind_ret_r. by destruct (await _ _).
  - intros this h c. cbn [addResponseInterceptor responseInterceptors].
    rewrite responseLoop_app. cbn [responseLoop].
    destruct (responseLoop 0 (responseInterceptors this) c) as [log [x|e]]; [|done].
    unfold bind at 1 3. rewrite bind_ret_r. by destruct (await _ _).
  - intros h1 h2 r r1 r2 H1 H2. cbn [requestLoop].
    rewrite H1, bind_await_normal, H2, bind_await_normal. done.
  - apply action_fetch_calls.
  - apply action_stages.
Qed.

(** *** The verb methods *)

(** C7, amended. [delete] declares its [data] parameter as required, as
    [post], [patch] and [put] do; of its parameters only [options] is
    optional, and the data it is given becomes the body of a [DELETE]
    call. *)
Theorem delete_declares_data_required :
  arity_of DELETE "data" = Some Required
  ∧ arity_of POST "data" = Some Required
  ∧ arity_of PATCH "data" = Some Required
  ∧ arity_of PUT "data" = Some Required
  ∧ arity_of DELETE "options" = Some Optional
  ∧ signature DELETE = signature POST
  ∧ (∀ (this : Fetcher) u data options,
       delete_ this u data options
       = action this u {| ap_method := DELETE; ap_body := data;
                          ap_rest := spreadOptional options |}).
Proof. repeat split. Qed.

(** C8. For a form-data body the constructed request has no
    [Content-Type] entry, whatever the merged headers held under that
    key; every other key is kept; and the body is the form-data value
    itself, not its JSON serialization. *)
Theorem form_data_drops_content_type (this : Fetcher) (u : string)
    (params : ActionParams) :
  instanceofFormData (ap_body params) = true →
  mergedHeaders this params
    = delete "Content-Type"
        (spreadHeaders (opt_headers (ap_rest params)) ∪ baseHeaders this)
  ∧ req_headers (rawRequest this u params) !! "Content-Type" = None
  ∧ (∀ k, k ≠ "Content-Type" →
       req_headers (rawRequest this u params) !! k
       = (spreadHeaders (opt_headers (ap_rest params)) ∪ baseHeaders this) !! k)
  ∧ body (rawRequest this u params) = ap_body params.
Proof.
  intros Hform. cbn [rawRequest req_headers body].
  rewrite (mergedHeaders_form_data this params Hform).
  split; [done|]. split; [apply lookup_delete_eq|].
  split; [intros k Hk; by apply lookup_delete_ne|].
  rewrite bool_decide_eq_false_2; [done|]. by rewrite lookup_delete_eq.
Qed.

(** *** Response interceptors and the success check *)

Lemma responseLoop_calls_kind i hs (c : Ctx) :
  forallb isResponseInterceptorCall (calls (responseLoop (Exn := Exn) i hs c)) = true.
Proof.
  revert i c. induction hs as [|h hs IH]; intros i c; [done|].
  cbn [responseLoop]. destruct (h c) as [c'|x]; [|done].
  rewrite bind_await_normal. cbn. apply IH.
Qed.

Lemma responseLoop_calls_length i hs (c c' : Ctx) :
  outcome (responseLoop (Exn := Exn) i hs c) = Fulfilled c' →
  length (calls (responseLoop (Exn := Exn) i hs c)) = length hs.
Proof.
  revert i c. induction hs as [|h hs IH]; intros i c; [done|].
  cbn [responseLoop]. destruct (h c) as [c1|x]; [|done].
  rewrite bind_await_normal. cbn. intros H. f_equal. by apply IH.
Qed.

Lemma settle_factory_iff (this : Fetcher) response (reqClone : Request) :
  Spec.nonSuccess response ↔
  outcome (settle this response reqClone)
  = Rejected (FromFactory (baseThrower this response reqClone)).
Proof.
  rewrite nonSuccess_ok. unfold settle.
  destruct (ok response); cbn; [|done].
  split; [done|]. by destruct (read _ _).
Qed.

(** C9. Once the send has produced a response, whatever its status, the
    response chain runs on it before anything else: its calls come right
    after the send and before the call to the error factory or to a
    reader, and the success check is made on the response that leaves
    the chain. A handler that substitutes a response therefore decides
    whether the call fails. *)
Theorem response_interceptors_precede_success_check (this : Fetcher)
    (u : string) (params : ActionParams) (request : Request) (raw : Response) :
  outcome (requestHandler this (rawRequest this u params)) = Fulfilled request →
  fetch request = Normal raw →
  let chain := responseLoop (Exn := Exn) 0 (responseInterceptors this)
                 {| ctx_request := clone request; ctx_response := raw |} in
  calls (action this u params)
  = (calls (requestHandler this (rawRequest this u params))
     ++ [CallFetch request]
     ++ calls chain
     ++ match outcome chain with
        | Fulfilled ctx => calls (settle this (ctx_response ctx) (clone request))
        | Rejected _ => []
        end)%list
  ∧ forallb isResponseInterceptorCall (calls chain) = true
  ∧ (∀ h hs, responseInterceptors this = h :: hs →
       hd_error (calls chain)
       = Some (CallResponseInterceptor 0
                 {| ctx_request := clone request; ctx_response := raw |}))
  ∧ (∀ ctx, outcome chain = Fulfilled ctx →
       length (calls chain) = length (responseInterceptors this)
       ∧ outcome (action this u params)
         = outcome (settle this (ctx_response ctx) (clone request))
       ∧ (Spec.nonSuccess (ctx_response ctx) ↔
          outcome (action this u params)
          = Rejected (FromFactory
              (baseThrower this (ctx_response ctx) (clone request)))))
  ∧ (∀ substitute,
       responseInterceptors this
       = [fun ctx => Normal {| ctx_request := ctx_request ctx;
                               ctx_response := substitute |}] →
       outcome (action this u params)
       = outcome (settle this substitute (clone request))).
Proof.
  intros Hreq Hfetch chain.
  assert (Hstage : ∀ ctx, outcome chain = Fulfilled ctx →
            outcome (action this u params)
            = outcome (settle this (ctx_response ctx) (clone request))).
  { intros ctx Hctx.
    refine (proj2 (action_stages this u params request (ctx_response ctx) Hreq _)).
    apply responseHandler_outcome. by exists raw, ctx. }
  split; [|split; [|split; [|split]]].
  - unfold action. rewrite calls_bind, Hreq. f_equal.
    rewrite calls_bind, responseHandler_calls.
    rewrite (responseHandler_outcome_normal this request (clone request) raw Hfetch).
    rewrite Hfetch. fold chain. cbn [app]. do 2 f_equal.
    by destruct (outcome chain).
  - apply responseLoop_calls_kind.
  - intros h hs Hhs. subst chain. rewrite Hhs. cbn [responseLoop].
    destruct (h _) as [c'|x]; [by rewrite bind_await_normal | done].
  - intros ctx Hctx. split; [by eapply responseLoop_calls_length|].
    split; [by apply Hstage|]. rewrite (Hstage ctx Hctx).
    apply settle_factory_iff.
  - intros substitute Hone.
    apply (Hstage {| ctx_request := clone request; ctx_response := substitute |}).
    subst chain. by rewrite Hone.
Qed.

(** C10, amended. The serialization test and the form-data removal look
    up the exact key [Content-Type]: an entry under [content-type] neither
    triggers the serialization nor is removed, even for a form-data
    body. The serialization test compares the value with
    [application/json] exactly: under the exact key, the value
    [application/json; charset=utf-8], like any other value, leaves the
    body as it is. The removal looks at the key alone: for a form-data
    body the entry under the exact key is removed whatever its value. *)
Theorem content_type_is_matched_exactly (this : Fetcher) (u : string)
    (params : ActionParams) :
  let merged := spreadHeaders (opt_headers (ap_rest params)) ∪ baseHeaders this in
  let r := rawRequest this u params in
  (merged !! "Content-Type" = None →
   merged !! "content-type" = Some "application/json" →
   body r = ap_body params
   ∧ req_headers r !! "content-type" = Some "application/json")
  ∧ (merged !! "Content-Type" = Some "application/json; charset=utf-8" →
     body r = ap_body params)
  ∧ (∀ v, v ≠ "application/json" → merged !! "Content-Type" = Some v →
       body r = ap_body params)
  ∧ (∀ k, k ≠ "Content-Type" → req_headers r !! k = merged !! k)
  ∧ (instanceofFormData (ap_body params) = true →
     req_headers r !! "Content-Type" = None)
  ∧ (body r = JSON_stringify (ap_body params) ∨ body r = ap_body params).
Proof.
  intros merged r.
  assert (Hraw : ∀ o, merged !! "Content-Type" = o →
                      o ≠ Some "application/json" → body r = ap_body params).
  { intros o Ho Hne. subst r. cbn [rawRequest body].
    rewrite bool_decide_eq_false_2; [done|].
    unfold mergedHeaders. cbv zeta. fold merged.
    destruct (instanceofFormData _); [by rewrite lookup_delete_eq | congruence]. }
  assert (Hkeep : ∀ k, k ≠ "Content-Type" → req_headers r !! k = merged !! k).
  { intros k Hk. subst r merged. cbn [rawRequest req_headers].
    by apply mergedHeaders_other. }
  split; [|split; [|split; [|split; [|split]]]].
  - intros Hnone Hlower. split; [by eapply Hraw|]. by rewrite Hkeep.
  - intros Hparam. by eapply Hraw.
  - intros v Hv Hsome. eapply Hraw; [done|]. congruence.
  - exact Hkeep.
  - intros Hform. subst r. cbn [rawRequest req_headers].
    rewrite mergedHeaders_form_data by done. apply lookup_delete_eq.
  - subst r. cbn [rawRequest body]. destruct (bool_decide _); auto.
Qed.

End PipelineFacts.

(** ** The theorems at concrete calls *)

(** [get("/missing")] against a server that answers 404. *)
Lemma non_success_response_fails_witness :
  Spec.nonSuccess Demo.notFound
  ∧ outcome (Demo.run Demo.client "/missing" Demo.getParams)
    = Rejected (FromFactory {| err_url := "http://localhost/missing";
                               err_statusCode := 404 |})
  ∧ List.filter isReaderCall (calls (Demo.run Demo.client "/missing" Demo.getParams))
    = [].
Proof.
  assert (Hbad : Spec.nonSuccess Demo.notFound) by (right; reflexivity).
  pose proof (non_success_response_fails (platform := Demo.platform) Demo.client "/missing" Demo.getParams
    (Demo.build Demo.client "/missing" Demo.getParams) Demo.notFound
    eq_refl eq_refl Hbad) as (Hout & _ & _ & Hread & _).
  split; [exact Hbad|]. split; [exact Hout | exact Hread].
Defined.

(** A 200 response that carries [Content-Disposition: attachment] and no
    [Content-Type] header is read with [blob()], not with [json()]. *)
Lemma no_content_type_read_as_blob :
  headers_get Demo.attachmentOnly "Content-Type" = None
  ∧ ok Demo.attachmentOnly = true
  ∧ reader_of Demo.attachmentOnly ≠ Json
  ∧ action (platform := Demo.attachmentPlatform) Demo.client "/report" Demo.getParams
    = ([CallFetch (Demo.build Demo.client "/report" Demo.getParams);
        CallReader Blob Demo.attachmentOnly],
       Fulfilled (Demo.VDecoded Blob "bytes")).
Proof. repeat split. discriminate. Qed.

(** A JSON answer, an attachment typed as JSON and an unlabeled answer. *)
Lemma decoding_follows_precedence_witness :
  (∃ k,
     Spec.decodesAs (headers_get Demo.jsonOk "Content-Disposition")
                    (headers_get Demo.jsonOk "Content-Type") k
     ∧ List.filter isReaderCall (calls (Demo.run Demo.client "/users" Demo.getParams))
       = [CallReader k Demo.jsonOk]
     ∧ List.filter isFactoryCall (calls (Demo.run Demo.client "/users" Demo.getParams))
       = []
     ∧ outcome (Demo.run Demo.client "/users" Demo.getParams)
       = outcome (await (Exn := string) (CallReader (JsValue := Demo.Value) k Demo.jsonOk)
                    (Demo.readBody k Demo.jsonOk)))
  ∧ reader_of Demo.attachmentJson = Blob
  ∧ reader_of Demo.plainOk = Json.
Proof.
  destruct (decoding_follows_precedence (platform := Demo.platform)) as (Hcall & _ & Hattach & Hnone).
  split; [|split].
  - exact (Hcall Demo.client "/users" Demo.getParams
             (Demo.build Demo.client "/users" Demo.getParams) Demo.jsonOk
             eq_refl eq_refl eq_refl).
  - apply Hattach; [|reflexivity]. exists "attachment". split; [reflexivity|].
    by exists "", "".
  - apply Hnone; [reflexivity|]. intros [v [H _]]. discriminate H.
Defined.

(** The repository's POST test, the same call without the base header,
    and with the base header overridden per call. *)
Lemma body_serialized_iff_json_content_type_witness :
  body (Demo.build Demo.jsonClient "/test" (Demo.params POST Demo.payload ∅))
  = Demo.VJsonText Demo.payload
  ∧ body (Demo.build Demo.client "/test" (Demo.params POST Demo.payload ∅))
    = Demo.payload
  ∧ body (Demo.build Demo.jsonClient "/test"
            (Demo.params POST Demo.payload {[ "Content-Type" := "text/plain" ]}))
    = Demo.payload.
Proof.
  split; [|split].
  - refine (proj1 (proj2 (body_serialized_iff_json_content_type (platform := Demo.platform)
      Demo.jsonClient "/test" (Demo.params POST Demo.payload ∅))) _).
    reflexivity.
  - refine (proj1 (proj2 (proj2 (body_serialized_iff_json_content_type (platform := Demo.platform)
      Demo.client "/test" (Demo.params POST Demo.payload ∅)))) _).
    discriminate.
  - refine (proj1 (proj2 (proj2 (body_serialized_iff_json_content_type (platform := Demo.platform)
      Demo.jsonClient "/test"
      (Demo.params POST Demo.payload {[ "Content-Type" := "text/plain" ]})))) _).
    discriminate.
Defined.

(** A relative path that starts with the characters [http] and has no
    scheme is left without a leading [/]; and a request interceptor that
    substitutes a request sends it elsewhere. *)
Lemma http_prefix_without_scheme_gets_no_slash :
  ¬ Spec.startsWithScheme (JsString.trim ("" +:+ "httpdocs/index.html"))
  ∧ ¬ Spec.beginsWith "/" (JsString.trim ("" +:+ "httpdocs/index.html"))
  ∧ normalizeUrl ("" +:+ "httpdocs/index.html") = "httpdocs/index.html"
  ∧ normalizeUrl ("" +:+ "httpdocs/index.html")
    ≠ "/" +:+ JsString.trim ("" +:+ "httpdocs/index.html")
  ∧ Demo.run Scenario.redirected "/test" Demo.getParams
    = ([CallRequestInterceptor 0 (Demo.build Demo.client "/test" Demo.getParams);
        CallFetch {| url := "http://elsewhere/x"; method := GET;
                     req_headers := ∅; req_settings := ∅;
                     body := Demo.VUndefined |};
        CallReader Json Demo.jsonOk],
       Fulfilled (Demo.VDecoded Json "{}"))
  ∧ normalizeUrl (baseUrl Scenario.redirected +:+ "/test") = "http://localhost/test".
Proof.
  assert (Hno : ∀ p s, String.prefix p s = false → ¬ Spec.beginsWith p s).
  { intros p s H. apply JsStringFacts.startsWith_false. exact H. }
  split; [intros [H|H]; revert H; by apply Hno|].
  split; [by apply Hno|].
  repeat split. discriminate.
Qed.

(** A base URL with a scheme, a bare path with white space around it, a
    rooted path, a path that only starts with [http], and a dispatch
    behind a header-setting interceptor. *)
Lemma url_is_normalized_witness :
  url (Demo.build Demo.client "/test" Demo.getParams) = "http://localhost/test"
  ∧ normalizeUrl ("" +:+ " users/1 ") = "/users/1"
  ∧ normalizeUrl ("" +:+ "/users/1") = "/users/1"
  ∧ normalizeUrl ("" +:+ "httpdocs/index.html") = "httpdocs/index.html"
  ∧ Forall Spec.keepsUrl (requestInterceptors Demo.tagged)
  ∧ ∃ request,
      List.filter isFetchCall (calls (Demo.run Demo.tagged "/test" Demo.getParams))
      = [CallFetch request]
      ∧ url request = url (Demo.build Demo.tagged "/test" Demo.getParams)
      ∧ req_headers request !! "X-Test-Header" = Some "interceptor-works".
Proof.
  pose proof (url_is_normalized (platform := Demo.platform) Demo.client "/test"
    Demo.getParams) as (Hurl & _ & Hscheme & _).
  pose proof (url_is_normalized (platform := Demo.platform) Demo.tagged "/test"
    Demo.getParams) as (_ & _ & _ & _ & _ & _ & _ & _ & _ & _ & Hsend).
  assert (Hkeep : Forall Spec.keepsUrl (requestInterceptors Demo.tagged)).
  { repeat constructor. intros r r' [= <-]. reflexivity. }
  pose proof (url_is_normalized (platform := Demo.platform) (new_Fetcher None)
    " users/1 " Demo.getParams) as (_ & _ & _ & _ & Hbare & _).
  pose proof (url_is_normalized (platform := Demo.platform) (new_Fetcher None)
    "/users/1" Demo.getParams) as (_ & _ & _ & _ & _ & Hslash & _).
  pose proof (url_is_normalized (platform := Demo.platform) (new_Fetcher None)
    "httpdocs/index.html" Demo.getParams) as (_ & _ & _ & Hhttp & _).
  assert (Hno : ∀ p s, String.prefix p s = false → ¬ Spec.beginsWith p s).
  { intros p s H. apply JsStringFacts.startsWith_false. exact H. }
  split; [|split; [|split; [|split; [|split]]]].
  - unfold Demo.build. rewrite Hurl.
    exact (Hscheme (or_introl (ex_intro _ "//localhost/test" eq_refl))).
  - refine (Hbare _ _); by apply Hno.
  - refine (Hslash _ (ex_intro _ "users/1" eq_refl)). by apply Hno.
  - exact (Hhttp (ex_intro _ "docs/index.html" eq_refl)).
  - exact Hkeep.
  - eexists. destruct (Hsend _ eq_refl) as [Hcall Hdispatched].
    split; [exact Hcall|]. split; [exact (Hdispatched Hkeep) | reflexivity].
Defined.

(** With a form-data body the request's headers are not the union: the
    base header [Content-Type] is in the union and not in the request.
    And per-call headers that are not given as a plain record do not
    reach the request: a [Headers] instance contributes nothing, so the
    base value of a shared key stays, and an array of pairs contributes
    its indices. *)
Lemma request_headers_are_not_always_the_union :
  (∅ ∪ baseHeaders Demo.keyedClient) !! "Content-Type" = Some "application/json"
  ∧ opt_headers (ap_rest Demo.upload) = None
  ∧ req_headers (Demo.build Demo.keyedClient "/upload" Demo.upload) !! "Content-Type"
    = None
  ∧ req_headers (Demo.build Demo.keyedClient "/upload" Demo.upload)
    ≠ ∅ ∪ baseHeaders Demo.keyedClient
  ∧ req_headers (Demo.build Demo.keyedClient "/test" Scenario.viaInstance)
      !! "X-Api-Key" = Some "secret-key"
  ∧ req_headers (Demo.build Demo.keyedClient "/test" Scenario.viaInstance)
      !! "Accept" = None
  ∧ req_headers (Demo.build Demo.keyedClient "/test" Scenario.viaPairs)
      !! "Accept" = None
  ∧ req_headers (Demo.build Demo.keyedClient "/test" Scenario.viaPairs)
      !! "1" = Some "Accept,text/plain".
Proof.
  split; [reflexivity|]. split; [reflexivity|]. split; [reflexivity|].
  split; [|repeat split].
  intros H. apply (f_equal (fun m => m !! "Content-Type")) in H.
  vm_compute in H. discriminate H.
Qed.

(** A colliding header and option, a header and an option from one side
    only, and the form-data exception. *)
Lemma headers_and_options_are_merged_witness :
  Spec.givenAsRecord (opt_headers (ap_rest Demo.override))
    {[ "X-Api-Key" := "per-call"; "Accept" := "text/plain" ]}
  ∧ Spec.givenAsRecord (opt_headers (ap_rest Demo.upload)) ∅
  ∧ req_headers (Demo.build Demo.keyedClient "/test" Demo.override) !! "X-Api-Key"
    = Some "per-call"
  ∧ req_headers (Demo.build Demo.keyedClient "/test" Demo.override) !! "Accept"
    = Some "text/plain"
  ∧ req_headers (Demo.build Demo.keyedClient "/test" Demo.override) !! "Content-Type"
    = Some "application/json"
  ∧ req_headers (Demo.build Demo.keyedClient "/upload" Demo.upload) !! "Content-Type"
    = None
  ∧ req_settings (Demo.build Demo.keyedClient "/test" Demo.override) !! "cache"
    = Some (Demo.VString "reload")
  ∧ req_settings (Demo.build Demo.keyedClient "/test" Demo.override) !! "mode"
    = Some (Demo.VString "cors").
Proof.
  assert (Hover : Spec.givenAsRecord (opt_headers (ap_rest Demo.override))
            {[ "X-Api-Key" := "per-call"; "Accept" := "text/plain" ]})
    by (right; reflexivity).
  assert (Hup : Spec.givenAsRecord (opt_headers (ap_rest Demo.upload)) ∅)
    by (left; split; reflexivity).
  pose proof (headers_and_options_are_merged (platform := Demo.platform)
    Demo.keyedClient "/test" Demo.override _ Hover) as (_ & Hkey & Hct & _ & _ & Hset).
  pose proof (headers_and_options_are_merged (platform := Demo.platform)
    Demo.keyedClient "/upload" Demo.upload _ Hup) as (_ & _ & _ & Hform & _).
  split; [exact Hover|]. split; [exact Hup|].
  split; [exact (Hkey "X-Api-Key" ltac:(discriminate))|].
  split; [exact (Hkey "Accept" ltac:(discriminate))|].
  split; [exact (Hct eq_refl)|].
  split; [exact (Hform eq_refl)|].
  split; [exact (Hset "cache") | exact (Hset "mode")].
Defined.

(** The header-setting interceptor of the repository's test, alone and
    registered twice. *)
Lemma interceptor_chains_are_left_folds_witness :
  ∃ tagged,
    Demo.tag (Demo.build Demo.client "/test" Demo.getParams) = Normal tagged
    ∧ req_headers tagged !! "X-Test-Header" = Some "interceptor-works"
    ∧ requestLoop (Exn := string) 0 [Demo.tag; Demo.tag]
        (Demo.build Demo.client "/test" Demo.getParams)
      = ([CallRequestInterceptor 0 (Demo.build Demo.client "/test" Demo.getParams);
          CallRequestInterceptor 1 tagged], Fulfilled tagged)
    ∧ List.filter isFetchCall (calls (Demo.run Demo.tagged "/test" Demo.getParams))
      = [CallFetch tagged]
    ∧ outcome (Demo.run Demo.tagged "/test" Demo.getParams)
      = outcome (settle (platform := Demo.platform) Demo.tagged Demo.jsonOk
                   (clone tagged)).
Proof.
  destruct (interceptor_chains_are_left_folds (platform := Demo.platform)) as (_ & _ & _ & _ & Htwo & Hsend & Hstage).
  eexists. split; [reflexivity|]. split; [reflexivity|].
  split; [|split].
  - exact (Htwo Demo.tag Demo.tag _ _ _ eq_refl eq_refl).
  - exact (Hsend Demo.tagged "/test" Demo.getParams).
  - exact (proj2 (Hstage Demo.tagged "/test" Demo.getParams _ Demo.jsonOk
                    eq_refl eq_refl)).
Defined.

(** The declared parameter list of [delete] has no optional [data]. *)
Lemma delete_data_is_not_optional :
  arity_of DELETE "data" ≠ Some Optional
  ∧ ¬ (arity_of DELETE "data" = Some Optional
       ∧ arity_of POST "data" = Some Required
       ∧ arity_of PATCH "data" = Some Required
       ∧ arity_of PUT "data" = Some Required).
Proof. split; [discriminate|]. intros [H _]. discriminate H. Qed.

(** An upload through a client whose base headers announce JSON. *)
Lemma form_data_drops_content_type_witness :
  instanceofFormData (Platform := Demo.platform) (ap_body Demo.upload) = true
  ∧ req_headers (Demo.build Demo.keyedClient "/upload" Demo.upload) !! "Content-Type"
    = None
  ∧ req_headers (Demo.build Demo.keyedClient "/upload" Demo.upload) !! "X-Api-Key"
    = Some "secret-key"
  ∧ body (Demo.build Demo.keyedClient "/upload" Demo.upload) = Demo.form.
Proof.
  pose proof (form_data_drops_content_type (platform := Demo.platform)
    Demo.keyedClient "/upload" Demo.upload eq_refl) as (_ & Hct & Hkeep & Hbody).
  split; [reflexivity|]. split; [exact Hct|].
  split; [exact (Hkeep "X-Api-Key" ltac:(discriminate)) | exact Hbody].
Defined.

(** A handler that turns the server's 404 into a 200 makes the call
    succeed; one that turns its 200 into a 404 makes it fail. *)
Lemma response_interceptors_precede_success_check_witness :
  Spec.nonSuccess Demo.notFound
  ∧ Demo.transport (Demo.build Demo.recovering "/missing" Demo.getParams)
    = Normal Demo.notFound
  ∧ outcome (Demo.run Demo.recovering "/missing" Demo.getParams)
    = Fulfilled (Demo.VDecoded Json "{}")
  ∧ outcome (Demo.run Demo.client "/missing" Demo.getParams)
    = Rejected (FromFactory {| err_url := "http://localhost/missing";
                               err_statusCode := 404 |})
  ∧ outcome (Demo.run (addResponseInterceptor Demo.client Demo.spoil) "/users"
               Demo.getParams)
    = Rejected (FromFactory {| err_url := "http://localhost/users";
                               err_statusCode := 404 |}).
Proof.
  split; [right; reflexivity|]. split; [reflexivity|].
  split; [|split].
  - exact (proj2 (proj2 (proj2 (proj2
      (response_interceptors_precede_success_check (platform := Demo.platform) Demo.recovering "/missing" Demo.getParams
         (Demo.build Demo.recovering "/missing" Demo.getParams) Demo.notFound
         eq_refl eq_refl)))) Demo.jsonOk eq_refl).
  - pose proof (response_interceptors_precede_success_check (platform := Demo.platform) Demo.client "/missing"
      Demo.getParams (Demo.build Demo.client "/missing" Demo.getParams)
      Demo.notFound eq_refl eq_refl) as (_ & _ & _ & Hfinal & _).
    destruct (Hfinal {| ctx_request := Demo.build Demo.client "/missing" Demo.getParams;
                        ctx_response := Demo.notFound |} eq_refl) as (_ & _ & Hiff).
    apply Hiff. right. reflexivity.
  - exact (proj2 (proj2 (proj2 (proj2
      (response_interceptors_precede_success_check (platform := Demo.platform) (addResponseInterceptor Demo.client Demo.spoil)
         "/users" Demo.getParams
         (Demo.build Demo.client "/users" Demo.getParams) Demo.jsonOk
         eq_refl eq_refl)))) Demo.notFound eq_refl).
Defined.

(** With a form-data body, a per-call [Content-Type] with a parameterized
    value is removed from the request's headers. *)
Lemma parameterized_content_type_is_removed_for_form_data :
  instanceofFormData (Platform := Demo.platform) Demo.form = true
  ∧ (spreadHeaders (opt_headers (ap_rest
        (Demo.params POST Demo.form
           {[ "Content-Type" := "application/json; charset=utf-8" ]})))
     ∪ baseHeaders Demo.client) !! "Content-Type"
    = Some "application/json; charset=utf-8"
  ∧ req_headers (Demo.build Demo.client "/upload"
        (Demo.params POST Demo.form
           {[ "Content-Type" := "application/json; charset=utf-8" ]}))
      !! "Content-Type" = None.
Proof. repeat split. Qed.

(** A lower-case key with a form-data body and with a plain body, and a
    parameterized value with a plain body and with a form-data body. *)
Lemma content_type_is_matched_exactly_witness :
  body (Demo.build Demo.client "/upload"
          (Demo.params POST Demo.form {[ "content-type" := "application/json" ]}))
  = Demo.form
  ∧ req_headers (Demo.build Demo.client "/upload"
          (Demo.params POST Demo.form {[ "content-type" := "application/json" ]}))
      !! "content-type" = Some "application/json"
  ∧ body (Demo.build Demo.client "/test"
          (Demo.params POST Demo.payload {[ "content-type" := "application/json" ]}))
    = Demo.payload
  ∧ body (Demo.build Demo.client "/test"
          (Demo.params POST Demo.payload
             {[ "Content-Type" := "application/json; charset=utf-8" ]}))
    = Demo.payload
  ∧ req_headers (Demo.build Demo.client "/upload"
          (Demo.params POST Demo.form
             {[ "Content-Type" := "application/json; charset=utf-8" ]}))
      !! "Content-Type" = None.
Proof.
  pose proof (content_type_is_matched_exactly (platform := Demo.platform)
    Demo.client "/upload"
    (Demo.params POST Demo.form
       {[ "Content-Type" := "application/json; charset=utf-8" ]}))
    as (_ & _ & _ & _ & Hgone & _).
  pose proof (content_type_is_matched_exactly (platform := Demo.platform)
    Demo.client "/upload"
    (Demo.params POST Demo.form {[ "content-type" := "application/json" ]}))
    as (Hform & _).
  pose proof (content_type_is_matched_exactly (platform := Demo.platform)
    Demo.client "/test"
    (Demo.params POST Demo.payload {[ "content-type" := "application/json" ]}))
    as (Hlower & _).
  pose proof (content_type_is_matched_exactly (platform := Demo.platform)
    Demo.client "/test"
    (Demo.params POST Demo.payload
       {[ "Content-Type" := "application/json; charset=utf-8" ]}))
    as (_ & Hparam & _).
  split; [exact (proj1 (Hform eq_refl eq_refl))|].
  split; [exact (proj2 (Hform eq_refl eq_refl))|].
  split; [exact (proj1 (Hlower eq_refl eq_refl))|].
  split; [exact (Hparam eq_refl) | exact (Hgone eq_refl)].
Defined.

(** ** Further facts about [trim] and [normalizeUrl] *)

Module JsStringTrim.
Import JsString.

Lemma append_assoc (a b c : string) : (a +:+ b) +:+ c = a +:+ (b +:+ c).
Proof.
  induction a as [|x a IH]; [done|].
  rewrite !JsStringFacts.append_cons. by rewrite IH.
Qed.

Lemma trimEnd_cons (c : ascii) (s : string) :
  trimEnd (String c s)
  = match trimEnd s with
    | EmptyString => if isWhiteSpace c then EmptyString else String c EmptyString
    | t => String c t
    end.
Proof. reflexivity. Qed.

Lemma trimEnd_cons_keep (c : ascii) (s : string) :
  isWhiteSpace c = false → trimEnd (String c s) = String c (trimEnd s).
Proof. intros Hc. rewrite trimEnd_cons, Hc. by destruct (trimEnd s). Qed.

Lemma trimStart_fixed (s : string) :
  isWhiteSpaceAt (head s) = false → trimStart s = s.
Proof. destruct s as [|c s]; [done|]. cbn. by intros ->. Qed.

Lemma trimEnd_fixed (s : string) :
  isWhiteSpaceAt (last s) = false → trimEnd s = s.
Proof.
  induction s as [|c s IH]; [done|]. destruct s as [|d s'].
  - cbn. by intros ->.
  - intros H. rewrite trimEnd_cons. by rewrite (IH H).
Qed.

Lemma trimStart_blank (l : string) : allWhiteSpace l = true → trimStart l = "".
Proof.
  induction l as [|c l IH]; [done|]. cbn [allWhiteSpace trimStart].
  intros [Hc Hl]%andb_true_iff. rewrite Hc. by apply IH.
Qed.

Lemma trimStart_skip (l x : string) :
  allWhiteSpace l = true → trimStart (l +:+ x) = trimStart x.
Proof.
  induction l as [|c l IH]; [done|]. cbn [allWhiteSpace].
  intros [Hc Hl]%andb_true_iff. rewrite JsStringFacts.append_cons.
  cbn [trimStart]. rewrite Hc. by apply IH.
Qed.

Lemma trimEnd_blank (r : string) : allWhiteSpace r = true → trimEnd r = "".
Proof.
  induction r as [|c r IH]; [done|]. cbn [allWhiteSpace].
  intros [Hc Hr]%andb_true_iff. by rewrite trimEnd_cons, IH, Hc.
Qed.

Lemma trimEnd_skip (t r : string) :
  allWhiteSpace r = true → trimEnd (t +:+ r) = trimEnd t.
Proof.
  intros Hr. induction t as [|c t IH].
  - rewrite JsStringFacts.append_empty. by apply trimEnd_blank.
  - by rewrite JsStringFacts.append_cons, !trimEnd_cons, IH.
Qed.

Lemma trim_fixed (t : string) :
  isWhiteSpaceAt (head t) = false → isWhiteSpaceAt (last t) = false → trim t = t.
Proof.
  intros Hh Hl. unfold trim. rewrite trimStart_fixed by done. by apply trimEnd_fixed.
Qed.

(** Whenever a string splits into white space, a part that neither starts
    nor ends with white space, and white space again, [trim] returns that
    part; so trimming twice changes nothing. *)
Lemma trim_core (s t : string) :
  Spec.trimmed s t → trim s = t ∧ trim (trim s) = trim s.
Proof.
  intros (l & r & -> & Hl & Hr & Hh & Hlast).
  assert (Hcore : trim (l +:+ t +:+ r) = t).
  { unfold trim. rewrite trimStart_skip by done. destruct t as [|c t'].
    - rewrite JsStringFacts.append_empty, trimStart_blank by done. done.
    - rewrite trimStart_fixed by (by rewrite JsStringFacts.append_cons).
      rewrite trimEnd_skip by done. by apply trimEnd_fixed. }
  rewrite Hcore. split; [done|]. by apply trim_fixed.
Qed.

End JsStringTrim.

Lemma beginsWith_https_http (s : string) :
  Spec.beginsWith "https" s → Spec.beginsWith "http" s.
Proof. intros [rest ->]. by exists ("s" +:+ rest). Qed.

Lemma normalizeUrl_clean (u : string) :
  JsString.isWhiteSpaceAt (JsString.head (normalizeUrl u)) = false
  ∧ JsString.isWhiteSpaceAt (JsString.last (normalizeUrl u)) = false
  ∧ (Spec.beginsWith "http" (normalizeUrl u)
     ∨ JsString.head (normalizeUrl u) = Some "/"%char).
Proof.
  destruct (JsStringFacts.trim_trimmed u) as (_ & _ & _ & _ & _ & Hh & Hl).
  unfold normalizeUrl. cbv zeta.
  destruct (JsString.startsWith "http" (JsString.trim u)
            || JsString.startsWith "https" (JsString.trim u)) eqn:Hs.
  - split; [done|]. split; [done|]. left.
    apply orb_true_iff in Hs as [Hs|Hs];
      apply JsStringFacts.prefix_beginsWith in Hs; [done|].
    by apply beginsWith_https_http.
  - destruct (bool_decide (JsString.head (JsString.trim u) = Some "/"%char)) eqn:Hd; cbn [negb].
    + apply bool_decide_eq_true in Hd. split; [done|]. split; [done|]. by right.
    + change ("/" +:+ JsString.trim u) with (String "/" (JsString.trim u)).
      split; [done|]. split; [|by right].
      cbn [JsString.last]. by destruct (JsString.trim u).
Qed.

(** X6. [normalizeUrl] is idempotent: a URL that has been normalized is
    left as it is by a second normalization. *)
Theorem normalizeUrl_idempotent (u : string) :
  normalizeUrl (normalizeUrl u) = normalizeUrl u.
Proof.
  destruct (normalizeUrl_clean u) as (Hh & Hl & Hshape).
  set (n := normalizeUrl u) in *.
  unfold normalizeUrl at 1. cbv zeta.
  rewrite (JsStringTrim.trim_fixed n Hh Hl).
  destruct (JsString.startsWith "http" n || JsString.startsWith "https" n) eqn:Hs;
    [done|].
  destruct Hshape as [Hhttp | Hslash].
  - apply JsStringFacts.prefix_beginsWith in Hhttp.
    unfold JsString.startsWith in Hs. by rewrite Hhttp in Hs.
  - by rewrite bool_decide_eq_true_2.
Qed.

(** X7. The result of [normalizeUrl] is never empty: it starts with [http]
    or with [/], and carries no white space at either end. An input that
    is empty or all white space gives [/]. *)
Theorem normalizeUrl_result_shape (u : string) :
  normalizeUrl u ≠ ""
  ∧ (Spec.beginsWith "http" (normalizeUrl u) ∨ Spec.beginsWith "/" (normalizeUrl u))
  ∧ JsString.isWhiteSpaceAt (JsString.head (normalizeUrl u)) = false
  ∧ JsString.isWhiteSpaceAt (JsString.last (normalizeUrl u)) = false
  ∧ (JsString.allWhiteSpace u = true → normalizeUrl u = "/").
Proof.
  destruct (normalizeUrl_clean u) as (Hh & Hl & Hshape).
  assert (Hstart : Spec.beginsWith "http" (normalizeUrl u)
                   ∨ Spec.beginsWith "/" (normalizeUrl u)).
  { destruct Hshape as [H|H]; [by left|right].
    destruct (normalizeUrl u) as [|c n]; [done|]. injection H as ->. by exists n. }
  split; [|split; [done|split; [done|split; [done|]]]].
  - intros Hempty. rewrite Hempty in Hstart.
    destruct Hstart as [[rest H]|[rest H]]; discriminate H.
  - intros Hblank. unfold normalizeUrl, JsString.trim.
    by rewrite JsStringTrim.trimStart_blank.
Qed.

(** X8. White space around a URL never changes the result: a string and
    its part between the leading and the trailing white space are
    normalized to the same URL. *)
Theorem normalizeUrl_ignores_surrounding_white_space (s t : string) :
  Spec.trimmed s t → normalizeUrl s = normalizeUrl t.
Proof.
  intros Hst. destruct (JsStringTrim.trim_core s t Hst) as [Hs Hidem].
  unfold normalizeUrl. cbv zeta. rewrite Hs in Hidem. by rewrite Hidem, Hs.
Qed.

Lemma trimEnd_keeps_http (x : string) :
  Spec.beginsWith "http" x → Spec.beginsWith "http" (JsString.trimEnd x).
Proof.
  intros [rest ->].
  change ("http" +:+ rest)
    with (String "h" (String "t" (String "t" (String "p" rest)))).
  rewrite !JsStringTrim.trimEnd_cons_keep by done.
  by exists (JsString.trimEnd rest).
Qed.

Lemma normalizeUrl_absolute (b u : string) :
  Spec.beginsWith "http" b → normalizeUrl (b +:+ u) = JsString.trimEnd (b +:+ u).
Proof.
  intros [rest ->]. rewrite JsStringTrim.append_assoc.
  assert (Htrim : JsString.trim ("http" +:+ rest +:+ u)
                  = JsString.trimEnd ("http" +:+ rest +:+ u)).
  { unfold JsString.trim. by rewrite JsStringTrim.trimStart_fixed. }
  rewrite normalizeUrl_http; [done|]. rewrite Htrim.
  apply trimEnd_keeps_http. by exists (rest +:+ u).
Qed.

(** ** Further facts about the pipeline: failures, counts, registration *)

Section PipelineMore.

Context {JsValue Exn : Type} {platform : @Platform JsValue Exn}.

Local Abbreviation Fetcher := (@Fetcher JsValue Exn).
Local Abbreviation Request := (@Request JsValue).
Local Abbreviation ActionParams := (@ActionParams JsValue).
Local Abbreviation Ctx := (@Ctx JsValue).
Local Abbreviation Event := (@Event JsValue).
Local Abbreviation Async := (@Async JsValue Exn).
Local Abbreviation dispatch request := (await (CallFetch request) (fetch request)).

Lemma outcome_bind {A B} (m : Async A) (k : A → Async B) :
  outcome (bind m k)
  = match outcome m with
    | Fulfilled a => outcome (k a)
    | Rejected r => Rejected r
    end.
Proof.
  destruct m as [log [a|r]]; unfold bind; cbn; [|done]. by destruct (k a).
Qed.

Lemma action_outcome (this : Fetcher) u params :
  outcome (action this u params)
  = match outcome (requestHandler this (rawRequest this u params)) with
    | Fulfilled request =>
        match outcome (responseHandler this (dispatch request) (clone request)) with
        | Fulfilled response => outcome (settle this response (clone request))
        | Rejected r => Rejected r
        end
    | Rejected r => Rejected r
    end.
Proof.
  unfold action. rewrite outcome_bind.
  destruct (outcome (requestHandler _ _)); [|done]. by rewrite outcome_bind.
Qed.

Lemma action_calls (this : Fetcher) u params :
  calls (action this u params)
  = (calls (requestHandler this (rawRequest this u params))
     ++ match outcome (requestHandler this (rawRequest this u params)) with
        | Fulfilled request =>
            calls (responseHandler this (dispatch request) (clone request))
            ++ match outcome (responseHandler this (dispatch request) (clone request)) with
               | Fulfilled response => calls (settle this response (clone request))
               | Rejected _ => []
               end
        | Rejected _ => []
        end)%list.
Proof.
  unfold action. rewrite calls_bind.
  destruct (outcome (requestHandler _ _)); [|done]. by rewrite calls_bind.
Qed.

Lemma requestLoop_stops i (hs1 : list (@InterceptorHandler Exn Request))
    (h : @InterceptorHandler Exn Request) hs2 (r r1 : Request) x :
  outcome (requestLoop (Exn := Exn) i hs1 r) = Fulfilled r1 →
  h r1 = Throws x →
  requestLoop i (hs1 ++ h :: hs2) r
  = ((calls (requestLoop (Exn := Exn) i hs1 r)
      ++ [CallRequestInterceptor (i + length hs1) r1])%list,
     Rejected (Foreign x)).
Proof.
  intros Hpre Hthrow. rewrite requestLoop_app.
  destruct (requestLoop i hs1 r) as [log s]. cbn in Hpre. subst s.
  cbn [bind requestLoop calls fst]. by rewrite Hthrow.
Qed.

Lemma responseLoop_stops i (hs1 : list (@InterceptorHandler Exn Ctx))
    (h : @InterceptorHandler Exn Ctx) hs2 (c c1 : Ctx) x :
  outcome (responseLoop (Exn := Exn) i hs1 c) = Fulfilled c1 →
  h c1 = Throws x →
  responseLoop i (hs1 ++ h :: hs2) c
  = ((calls (responseLoop (Exn := Exn) i hs1 c)
      ++ [CallResponseInterceptor (i + length hs1) c1])%list,
     Rejected (Foreign x)).
Proof.
  intros Hpre Hthrow. rewrite responseLoop_app.
  destruct (responseLoop i hs1 c) as [log s]. cbn in Hpre. subst s.
  cbn [bind responseLoop calls fst]. by rewrite Hthrow.
Qed.

(** X1. When a request interceptor throws, the call is rejected with the
    thrown value as it is; the handlers registered after it are not
    called and nothing is sent. *)
Theorem request_interceptor_failure_stops_the_call (this : Fetcher) (u : string)
    (params : ActionParams) (hs1 : list (@InterceptorHandler Exn Request))
    (h : @InterceptorHandler Exn Request) hs2 (r1 : Request) (x : Exn) :
  requestInterceptors this = (hs1 ++ h :: hs2)%list →
  outcome (requestLoop 0 hs1 (rawRequest this u params)) = Fulfilled r1 →
  h r1 = Throws x →
  outcome (action this u params) = Rejected (Foreign x)
  ∧ calls (action this u params)
    = (calls (requestLoop (Exn := Exn) 0 hs1 (rawRequest this u params))
       ++ [CallRequestInterceptor (length hs1) r1])%list
  ∧ List.filter isFetchCall (calls (action this u params)) = [].
Proof.
  intros Hlist Hpre Hthrow.
  assert (Hreq : requestHandler this (rawRequest this u params)
                 = ((calls (requestLoop (Exn := Exn) 0 hs1 (rawRequest this u params))
                     ++ [CallRequestInterceptor (length hs1) r1])%list,
                    Rejected (Foreign x))).
  { unfold requestHandler. rewrite Hlist.
    exact (requestLoop_stops 0 hs1 h hs2 _ r1 x Hpre Hthrow). }
  rewrite action_outcome, action_fetch_calls, action_calls, Hreq. cbn.
  by rewrite app_nil_r.
Qed.

(** X2. When [fetch] rejects, the call is rejected with the same value;
    the send is the last call made, so no response interceptor, error
    factory or body reader runs. *)
Theorem transport_failure_is_passed_on (this : Fetcher) (u : string)
    (params : ActionParams) (request : Request) (x : Exn) :
  outcome (requestHandler this (rawRequest this u params)) = Fulfilled request →
  fetch request = Throws x →
  outcome (action this u params) = Rejected (Foreign x)
  ∧ calls (action this u params)
    = (calls (requestHandler this (rawRequest this u params))
       ++ [CallFetch request])%list.
Proof.
  intros Hreq Hfetch.
  assert (Hresp : responseHandler this (dispatch request) (clone request)
                  = ([CallFetch request], Rejected (Foreign x))).
  { unfold responseHandler. by rewrite Hfetch. }
  by rewrite action_outcome, action_calls, Hreq, Hresp.
Qed.

(** X3. When a response interceptor throws, the call is rejected with the
    thrown value; the later handlers, the error factory and the body
    readers are not called, whatever the status of the response. *)
Theorem response_interceptor_failure_stops_the_call (this : Fetcher) (u : string)
    (params : ActionParams) (request : Request) (raw : Response)
    (hs1 : list (@InterceptorHandler Exn Ctx)) (h : @InterceptorHandler Exn Ctx)
    hs2 (c1 : Ctx) (x : Exn) :
  outcome (requestHandler this (rawRequest this u params)) = Fulfilled request →
  fetch request = Normal raw →
  responseInterceptors this = (hs1 ++ h :: hs2)%list →
  outcome (responseLoop 0 hs1 {| ctx_request := clone request; ctx_response := raw |})
    = Fulfilled c1 →
  h c1 = Throws x →
  outcome (action this u params) = Rejected (Foreign x)
  ∧ calls (action this u params)
    = (calls (requestHandler this (rawRequest this u params))
       ++ [CallFetch request]
       ++ calls (responseLoop (Exn := Exn) 0 hs1
                   {| ctx_request := clone request; ctx_response := raw |})
       ++ [CallResponseInterceptor (length hs1) c1])%list
  ∧ List.filter isFactoryCall (calls (action this u params)) = []
  ∧ List.filter isReaderCall (calls (action this u params)) = [].
Proof.
  intros Hreq Hfetch Hlist Hpre Hthrow.
  assert (Hresp : responseHandler this (dispatch request) (clone request)
                  = ((CallFetch request
                      :: calls (responseLoop (Exn := Exn) 0 hs1
                           {| ctx_request := clone request; ctx_response := raw |})
                      ++ [CallResponseInterceptor (length hs1) c1])%list,
                     Rejected (Foreign x))).
  { unfold responseHandler. rewrite Hfetch, bind_await_normal, Hlist.
    cbv beta.
    pose proof (responseLoop_stops 0 hs1 h hs2 _ c1 x Hpre Hthrow) as Hstop.
    cbn [Nat.add] in Hstop. by rewrite Hstop. }
  assert (Hcalls : calls (action this u params)
    = (calls (requestHandler this (rawRequest this u params))
       ++ [CallFetch request]
       ++ calls (responseLoop (Exn := Exn) 0 hs1
                   {| ctx_request := clone request; ctx_response := raw |})
       ++ [CallResponseInterceptor (length hs1) c1])%list).
  { rewrite action_calls, Hreq, Hresp. cbn. by rewrite app_nil_r. }
  split; [by rewrite action_outcome, Hreq, Hresp|]. split; [done|].
  rewrite Hcalls, !List.filter_app.
  rewrite !requestHandler_filter, !responseLoop_filter by done. done.
Qed.

Lemma requestLoop_rejects_foreign i hs (r : Request) e :
  outcome (requestLoop (Exn := Exn) i hs r) = Rejected e → ∃ x, e = Foreign x.
Proof.
  revert i r. induction hs as [|h hs IH]; intros i r; [done|].
  cbn [requestLoop]. destruct (h r) as [r'|x].
  - rewrite bind_await_normal. apply IH.
  - cbn. intros [= <-]. by exists x.
Qed.

Lemma responseLoop_rejects_foreign i hs (c : Ctx) e :
  outcome (responseLoop (Exn := Exn) i hs c) = Rejected e → ∃ x, e = Foreign x.
Proof.
  revert i c. induction hs as [|h hs IH]; intros i c; [done|].
  cbn [responseLoop]. destruct (h c) as [c'|x].
  - rewrite bind_await_normal. apply IH.
  - cbn. intros [= <-]. by exists x.
Qed.

Lemma responseHandler_rejects_foreign (this : Fetcher) (request reqClone : Request) e :
  outcome (responseHandler this (dispatch request) reqClone) = Rejected e →
  ∃ x, e = Foreign x.
Proof.
  unfold responseHandler. destruct (fetch request) as [raw|x].
  - rewrite bind_await_normal. cbn [outcome snd]. rewrite outcome_bind.
    destruct (outcome (responseLoop _ _ _)) as [ctx|e'] eqn:Hloop; [done|].
    intros [= <-]. by eapply responseLoop_rejects_foreign.
  - cbn. intros [= <-]. by exists x.
Qed.

Lemma requestLoop_calls_bound i hs (r : Request) :
  (length (calls (requestLoop (Exn := Exn) i hs r)) ≤ length hs)%nat
  ∧ (∀ r', outcome (requestLoop (Exn := Exn) i hs r) = Fulfilled r' →
       length (calls (requestLoop (Exn := Exn) i hs r)) = length hs).
Proof.
  revert i r. induction hs as [|h hs IH]; intros i r; [done|].
  cbn [requestLoop]. destruct (h r) as [r1|x].
  - rewrite bind_await_normal. cbn. destruct (IH (S i) r1) as [Hle Heq].
    split; [lia|]. intros r' Hr'. by rewrite (Heq r' Hr').
  - cbn. split; [lia | done].
Qed.

Lemma responseLoop_calls_bound i hs (c : Ctx) :
  (length (calls (responseLoop (Exn := Exn) i hs c)) ≤ length hs)%nat.
Proof.
  revert i c. induction hs as [|h hs IH]; intros i c; [done|].
  cbn [responseLoop]. destruct (h c) as [c1|x].
  - rewrite bind_await_normal. cbn. specialize (IH (S i) c1). lia.
  - cbn. lia.
Qed.

Lemma action_filter (f : Event → bool) (this : Fetcher) u params :
  (∀ j x, f (CallRequestInterceptor j x) = false) →
  (∀ j x, f (CallResponseInterceptor j x) = false) →
  List.filter f (calls (action this u params))
  = match outcome (requestHandler this (rawRequest this u params)) with
    | Fulfilled request =>
        (List.filter f [CallFetch request]
         ++ match outcome (responseHandler this (dispatch request) (clone request)) with
            | Fulfilled response =>
                List.filter f (calls (settle this response (clone request)))
            | Rejected _ => []
            end)%list
    | Rejected _ => []
    end.
Proof.
  intros Hreq Hresp.
  rewrite action_calls, List.filter_app, requestHandler_filter by done.
  destruct (outcome (requestHandler _ _)) as [request|e]; [|done].
  rewrite List.filter_app, responseHandler_filter by done.
  by destruct (outcome (responseHandler _ _ _)).
Qed.

(** X4. Every call makes at most one send and at most one closing call,
    which is either the error factory or a body reader, never both and
    never without a send. A call that is fulfilled has read a body and
    has not called the factory; a call rejected with the factory's error
    has called the factory and has read no body. *)
Theorem at_most_one_send_and_one_closing_call (this : Fetcher) (u : string)
    (params : ActionParams) :
  (length (List.filter isFetchCall (calls (action this u params))) ≤ 1)%nat
  ∧ (length (List.filter isFactoryCall (calls (action this u params)))
     + length (List.filter isReaderCall (calls (action this u params))) ≤ 1)%nat
  ∧ (List.filter isFetchCall (calls (action this u params)) = [] →
     List.filter isFactoryCall (calls (action this u params)) = []
     ∧ List.filter isReaderCall (calls (action this u params)) = [])
  ∧ (∀ v, outcome (action this u params) = Fulfilled v →
       length (List.filter isReaderCall (calls (action this u params))) = 1
       ∧ List.filter isFactoryCall (calls (action this u params)) = [])
  ∧ (∀ e, outcome (action this u params) = Rejected (FromFactory e) →
       length (List.filter isFactoryCall (calls (action this u params))) = 1
       ∧ List.filter isReaderCall (calls (action this u params)) = []).
Proof.
  rewrite !action_filter, action_outcome by done.
  destruct (outcome (requestHandler this (rawRequest this u params)))
    as [request|e1] eqn:Hreq.
  - destruct (outcome (responseHandler this (dispatch request) (clone request)))
      as [response|e2] eqn:Hresp.
    + unfold settle. destruct (ok response); cbn.
      * destruct (read _ _); cbn; repeat split; try done; lia.
      * repeat split; try done; lia.
    + apply responseHandler_rejects_foreign in Hresp as [x ->].
      cbn. repeat split; try done; lia.
  - apply requestLoop_rejects_foreign in Hreq as [x ->].
    cbn. repeat split; try done; lia.
Qed.

(** A call never makes more collaborator calls than one per registered
    interceptor plus the send and one closing call; a call that is
    fulfilled, or rejected with the factory's error, has made exactly that
    many. *)
Lemma action_calls_count (this : Fetcher) (u : string)
    (params : ActionParams) :
  (length (calls (action this u params))
     ≤ length (requestInterceptors this) + length (responseInterceptors this) + 2)%nat
  ∧ (∀ v, outcome (action this u params) = Fulfilled v →
       length (calls (action this u params))
       = (length (requestInterceptors this)
          + length (responseInterceptors this) + 2)%nat)
  ∧ (∀ e, outcome (action this u params) = Rejected (FromFactory e) →
       length (calls (action this u params))
       = (length (requestInterceptors this)
          + length (responseInterceptors this) + 2)%nat).
Proof.
  rewrite action_calls, action_outcome.
  destruct (requestLoop_calls_bound 0 (requestInterceptors this)
              (rawRequest this u params)) as [Hle Heq].
  fold (requestHandler this (rawRequest this u params)) in Hle, Heq.
  destruct (outcome (requestHandler this (rawRequest this u params)))
    as [request|e1] eqn:Hreq.
  - specialize (Heq request eq_refl).
    rewrite !length_app, Heq, responseHandler_calls.
    destruct (outcome (responseHandler this (dispatch request) (clone request)))
      as [response|e2] eqn:Hresp.
    + apply responseHandler_outcome in Hresp as (raw & ctx & Hfetch & Hloop & <-).
      rewrite Hfetch. cbn [length].
      rewrite (responseLoop_calls_length _ _ _ _ Hloop).
      assert (length (calls (settle this (ctx_response ctx) (clone request))) = 1)
        as ->.
      { unfold settle. by destruct (ok _). }
      repeat split; intros; lia.
    + apply responseHandler_rejects_foreign in Hresp as [x ->].
      cbn [length]. split; [|done].
      destruct (fetch request) as [raw|y]; cbn [length]; [|lia].
      pose proof (responseLoop_calls_bound 0 (responseInterceptors this)
                    {| ctx_request := clone request; ctx_response := raw |}).
      lia.
  - apply requestLoop_rejects_foreign in Hreq as [x ->].
    rewrite app_nil_r. split; [lia | done].
Qed.

Lemma forallb_filter_id {A} (f : A → bool) (l : list A) :
  forallb f l = true → List.filter f l = l.
Proof.
  induction l as [|x l IH]; [done|]. cbn.
  intros [Hx Hl]%andb_true_iff. by rewrite Hx, IH.
Qed.

Lemma requestLoop_calls_kind i hs (r : Request) :
  forallb isRequestInterceptorCall (calls (requestLoop (Exn := Exn) i hs r)) = true.
Proof.
  revert i r. induction hs as [|h hs IH]; intros i r; [done|].
  cbn [requestLoop]. destruct (h r) as [r'|x]; [|done].
  rewrite bind_await_normal. cbn. apply IH.
Qed.

Lemma requestLoop_calls_handed i (hs : list (@InterceptorHandler Exn Request))
    (r : Request) :
  calls (requestLoop i hs r)
  = imap (fun j a => CallRequestInterceptor (i + j) a) (handed hs r).
Proof.
  revert i r. induction hs as [|h hs IH]; intros i r; [done|].
  cbn [requestLoop handed]. rewrite imap_cons, Nat.add_0_r.
  destruct (h r) as [r'|x]; [|done].
  rewrite bind_await_normal. cbn [calls fst]. f_equal. rewrite IH.
  apply imap_ext. intros j a _. cbn. f_equal. lia.
Qed.

Lemma responseLoop_calls_handed i (hs : list (@InterceptorHandler Exn Ctx))
    (c : Ctx) :
  calls (responseLoop i hs c)
  = imap (fun j a => CallResponseInterceptor (i + j) a) (handed hs c).
Proof.
  revert i c. induction hs as [|h hs IH]; intros i c; [done|].
  cbn [responseLoop handed]. rewrite imap_cons, Nat.add_0_r.
  destruct (h c) as [c'|x]; [|done].
  rewrite bind_await_normal. cbn [calls fst]. f_equal. rewrite IH.
  apply imap_ext. intros j a _. cbn. f_equal. lia.
Qed.

Lemma handed_length {T} (hs : list (@InterceptorHandler Exn T)) (x : T) :
  (length (handed hs x) ≤ length hs)%nat.
Proof.
  revert x. induction hs as [|h hs IH]; intros x; [done|].
  cbn [handed length]. destruct (h x) as [y|e]; [|cbn; lia].
  specialize (IH y). lia.
Qed.

Lemma action_request_interceptor_calls (this : Fetcher) u params :
  List.filter isRequestInterceptorCall (calls (action this u params))
  = calls (requestHandler this (rawRequest this u params)).
Proof.
  rewrite action_calls, List.filter_app.
  rewrite (forallb_filter_id _ (calls (requestHandler this (rawRequest this u params)))
             (requestLoop_calls_kind 0 _ _)).
  destruct (outcome (requestHandler this _)) as [request|e];
    [|cbn; by rewrite app_nil_r].
  rewrite List.filter_app, responseHandler_filter by done.
  destruct (outcome (responseHandler this _ _)) as [response|e];
    [|cbn; by rewrite app_nil_r].
  unfold settle. destruct (ok response); cbn; by rewrite app_nil_r.
Qed.

Lemma action_response_interceptor_calls (this : Fetcher) u params request raw :
  outcome (requestHandler this (rawRequest this u params)) = Fulfilled request →
  fetch request = Normal raw →
  List.filter isResponseInterceptorCall (calls (action this u params))
  = calls (responseLoop 0 (responseInterceptors this)
             {| ctx_request := clone request; ctx_response := raw |}).
Proof.
  intros Hreq Hfetch.
  rewrite action_calls, List.filter_app, requestHandler_filter, Hreq by done.
  rewrite List.filter_app, responseHandler_calls, Hfetch. cbn [List.filter app].
  rewrite (forallb_filter_id _ _ (responseLoop_calls_kind 0 _ _)).
  destruct (outcome (responseHandler this _ _)) as [response|e];
    [|by rewrite app_nil_r].
  unfold settle. destruct (ok response); cbn; by rewrite app_nil_r.
Qed.

(** X5. The interceptor calls of a call are exactly these: the request
    interceptors, from the first on, each at its own position and on what
    the one before it returned, starting from the constructed request;
    then, once a response has arrived, the response interceptors in the
    same way, starting from the clone of the sent request and that
    response. A chain stops at the first handler that throws. In a call
    that is fulfilled, or rejected with the factory's error, every
    registered interceptor has so been called exactly once, and with the
    send and the closing call these are all the calls made. *)
Theorem every_interceptor_runs_once_in_order (this : Fetcher) (u : string)
    (params : ActionParams) :
  List.filter isRequestInterceptorCall (calls (action this u params))
    = imap CallRequestInterceptor
        (handed (requestInterceptors this) (rawRequest this u params))
  ∧ (length (handed (requestInterceptors this) (rawRequest this u params))
       ≤ length (requestInterceptors this))%nat
  ∧ (∀ request raw,
       outcome (requestHandler this (rawRequest this u params)) = Fulfilled request →
       fetch request = Normal raw →
       length (handed (requestInterceptors this) (rawRequest this u params))
         = length (requestInterceptors this)
       ∧ List.filter isResponseInterceptorCall (calls (action this u params))
         = imap CallResponseInterceptor
             (handed (responseInterceptors this)
                {| ctx_request := clone request; ctx_response := raw |})
       ∧ (length (handed (responseInterceptors this)
                    {| ctx_request := clone request; ctx_response := raw |})
            ≤ length (responseInterceptors this))%nat)
  ∧ (∀ s, outcome (action this u params) = s →
       (∃ v, s = Fulfilled v) ∨ (∃ e, s = Rejected (FromFactory e)) →
       length (List.filter isRequestInterceptorCall (calls (action this u params)))
         = length (requestInterceptors this)
       ∧ length (List.filter isResponseInterceptorCall (calls (action this u params)))
         = length (responseInterceptors this)
       ∧ length (calls (action this u params))
         = (length (requestInterceptors this)
            + length (responseInterceptors this) + 2)%nat).
Proof.
  assert (Hreqcalls : List.filter isRequestInterceptorCall (calls (action this u params))
            = imap CallRequestInterceptor
                (handed (requestInterceptors this) (rawRequest this u params))).
  { rewrite action_request_interceptor_calls. unfold requestHandler.
    rewrite requestLoop_calls_handed. by apply imap_ext. }
  assert (Hfull : ∀ request,
            outcome (requestHandler this (rawRequest this u params)) = Fulfilled request →
            length (handed (requestInterceptors this) (rawRequest this u params))
            = length (requestInterceptors this)).
  { intros request Hreq.
    destruct (requestLoop_calls_bound 0 (requestInterceptors this)
                (rawRequest this u params)) as [_ Heq].
    rewrite <- (Heq request Hreq), requestLoop_calls_handed. by rewrite length_imap. }
  assert (Hrespcalls : ∀ request raw,
            outcome (requestHandler this (rawRequest this u params)) = Fulfilled request →
            fetch request = Normal raw →
            List.filter isResponseInterceptorCall (calls (action this u params))
            = imap CallResponseInterceptor
                (handed (responseInterceptors this)
                   {| ctx_request := clone request; ctx_response := raw |})).
  { intros request raw Hreq Hfetch.
    rewrite (action_response_interceptor_calls this u params request raw Hreq Hfetch).
    rewrite responseLoop_calls_handed. by apply imap_ext. }
  split; [exact Hreqcalls|]. split; [apply handed_length|]. split.
  - intros request raw Hreq Hfetch. split; [by eapply Hfull|].
    split; [by apply Hrespcalls | apply handed_length].
  - intros s Hs Hkind.
    assert (Hcount : length (calls (action this u params))
                     = (length (requestInterceptors this)
                        + length (responseInterceptors this) + 2)%nat).
    { destruct (action_calls_count this u params) as (_ & Hv & He).
      destruct Hkind as [[v ->]|[e ->]]; [by eapply Hv | by eapply He]. }
    assert (Hstages : ∃ request raw ctx,
              outcome (requestHandler this (rawRequest this u params)) = Fulfilled request
              ∧ fetch request = Normal raw
              ∧ outcome (responseLoop 0 (responseInterceptors this)
                           {| ctx_request := clone request; ctx_response := raw |})
                = Fulfilled ctx).
    { rewrite action_outcome in Hs.
      destruct (outcome (requestHandler this (rawRequest this u params)))
        as [request|e1] eqn:Hreq.
      - destruct (outcome (responseHandler this (dispatch request) (clone request)))
          as [response|e2] eqn:Hresp.
        + apply responseHandler_outcome in Hresp as (raw & ctx & Hfetch & Hloop & _).
          by exists request, raw, ctx.
        + apply responseHandler_rejects_foreign in Hresp as [x ->]. subst s.
          destruct Hkind as [[v Hv]|[e He]]; discriminate.
      - apply requestLoop_rejects_foreign in Hreq as [x ->]. subst s.
        destruct Hkind as [[v Hv]|[e He]]; discriminate. }
    destruct Hstages as (request & raw & ctx & Hreq & Hfetch & Hloop).
    split; [|split; [|exact Hcount]].
    + rewrite Hreqcalls, length_imap. by eapply Hfull.
    + rewrite (action_response_interceptor_calls this u params request raw Hreq Hfetch).
      by eapply responseLoop_calls_length.
Qed.

(** X9. With a [baseUrl] that starts with [http], the request is
    constructed with [baseUrl + url] less its trailing white space: no
    slash is inserted, and when the concatenation does not end in white
    space it is used as it is. *)
Theorem absolute_base_url_is_kept (this : Fetcher) (u : string)
    (params : ActionParams) :
  Spec.beginsWith "http" (baseUrl this) →
  url (rawRequest this u params) = JsString.trimEnd (baseUrl this +:+ u)
  ∧ (JsString.isWhiteSpaceAt (JsString.last (baseUrl this +:+ u)) = false →
     url (rawRequest this u params) = baseUrl this +:+ u).
Proof.
  intros Hbase. cbn [rawRequest url].
  rewrite (normalizeUrl_absolute _ u Hbase). split; [done|].
  apply JsStringTrim.trimEnd_fixed.
Qed.

(** *** Interceptors that hand back what they are given *)

Lemma requestHandler_snoc (this : Fetcher) h (r : Request) :
  requestHandler (addRequestInterceptor this h) r
  = bind (requestHandler this r) (fun x =>
      await (CallRequestInterceptor (length (requestInterceptors this)) x) (h x)).
Proof.
  unfold requestHandler. cbn [addRequestInterceptor requestInterceptors].
  rewrite requestLoop_app. cbn [requestLoop Nat.add].
  destruct (requestLoop 0 (requestInterceptors this) r) as [log [x|e]]; [|done].
  cbn [bind]. by destruct (h x).
Qed.

Lemma responseLoop_snoc (this : Fetcher) h (c : Ctx) :
  responseLoop 0 (responseInterceptors (addResponseInterceptor this h)) c
  = bind (responseLoop 0 (responseInterceptors this) c) (fun x =>
      await (CallResponseInterceptor (length (responseInterceptors this)) x) (h x)).
Proof.
  cbn [addResponseInterceptor responseInterceptors].
  rewrite responseLoop_app. cbn [responseLoop Nat.add].
  destruct (responseLoop 0 (responseInterceptors this) c) as [log [x|e]]; [|done].
  cbn [bind]. by destruct (h x).
Qed.

(** X10. Registering an interceptor that returns what it is given, as a
    logging handler does, changes neither how a call settles nor what is
    sent; this holds for a request interceptor and for a response
    interceptor. *)
Theorem pass_through_interceptor_is_transparent (this : Fetcher) (u : string)
    (params : ActionParams) :
  (∀ h : @InterceptorHandler Exn Request,
     (∀ r, h r = Normal r) →
     outcome (action (addRequestInterceptor this h) u params)
       = outcome (action this u params)
     ∧ List.filter isFetchCall (calls (action (addRequestInterceptor this h) u params))
       = List.filter isFetchCall (calls (action this u params)))
  ∧ (∀ h : @InterceptorHandler Exn Ctx,
       (∀ c, h c = Normal c) →
       outcome (action (addResponseInterceptor this h) u params)
         = outcome (action this u params)
       ∧ List.filter isFetchCall (calls (action (addResponseInterceptor this h) u params))
         = List.filter isFetchCall (calls (action this u params))).
Proof.
  split.
  - intros h Hpass.
    assert (Hsame : outcome (requestHandler (addRequestInterceptor this h)
                               (rawRequest this u params))
                    = outcome (requestHandler this (rawRequest this u params))).
    { rewrite requestHandler_snoc, outcome_bind.
      destruct (outcome (requestHandler this _)) as [x|e]; [|done].
      by rewrite Hpass. }
    rewrite !action_outcome, !action_fetch_calls.
    change (rawRequest (addRequestInterceptor this h) u params)
      with (rawRequest this u params).
    by rewrite Hsame.
  - intros h Hpass.
    rewrite !action_outcome, !action_fetch_calls.
    change (rawRequest (addResponseInterceptor this h) u params)
      with (rawRequest this u params).
    change (requestHandler (addResponseInterceptor this h))
      with (requestHandler this).
    split; [|done].
    destruct (outcome (requestHandler this (rawRequest this u params)))
      as [request|e]; [|done].
    assert (Hsame : outcome (responseHandler (addResponseInterceptor this h)
                               (dispatch request) (clone request))
                    = outcome (responseHandler this (dispatch request) (clone request))).
    { unfold responseHandler. rewrite !outcome_bind.
      destruct (outcome (dispatch request)) as [raw|e]; [|done].
      rewrite !outcome_bind, responseLoop_snoc, outcome_bind.
      destruct (outcome (responseLoop 0 (responseInterceptors this) _))
        as [ctx|e]; [|done].
      by rewrite Hpass. }
    by rewrite Hsame.
Qed.

(** X11. The constructed request depends on the client only through
    [baseUrl], [baseHeaders] and the members of [baseOptions] other than
    [headers]: a [headers] member placed in [baseOptions] never reaches
    the request, and neither the interceptors nor the error factory take
    part in building it. *)
Theorem request_ignores_headers_in_base_options (this this' : Fetcher)
    (u : string) (params : ActionParams) :
  baseUrl this = baseUrl this' →
  baseHeaders this = baseHeaders this' →
  opt_settings (baseOptions this) = opt_settings (baseOptions this') →
  rawRequest this u params = rawRequest this' u params.
Proof.
  intros Hurl Hheaders Hsettings.
  unfold rawRequest, mergedHeaders, mergedOptions, spreadOptions.
  cbn [opt_settings]. by rewrite Hurl, Hheaders, Hsettings.
Qed.

(** *** Registration *)

Lemma register_requests_fields (this : Fetcher) hs :
  requestInterceptors (fold_left addRequestInterceptor hs this)
    = (requestInterceptors this ++ hs)%list
  ∧ responseInterceptors (fold_left addRequestInterceptor hs this)
    = responseInterceptors this
  ∧ baseUrl (fold_left addRequestInterceptor hs this) = baseUrl this
  ∧ baseHeaders (fold_left addRequestInterceptor hs this) = baseHeaders this
  ∧ baseOptions (fold_left addRequestInterceptor hs this) = baseOptions this
  ∧ baseThrower (fold_left addRequestInterceptor hs this) = baseThrower this.
Proof.
  revert this. induction hs as [|h hs IH]; intros this; cbn [fold_left].
  - by rewrite app_nil_r.
  - destruct (IH (addRequestInterceptor this h)) as (-> & -> & -> & -> & -> & ->).
    cbn. by rewrite <- app_assoc.
Qed.

Lemma register_responses_fields (this : Fetcher) hs :
  responseInterceptors (fold_left addResponseInterceptor hs this)
    = (responseInterceptors this ++ hs)%list
  ∧ requestInterceptors (fold_left addResponseInterceptor hs this)
    = requestInterceptors this
  ∧ baseUrl (fold_left addResponseInterceptor hs this) = baseUrl this
  ∧ baseHeaders (fold_left addResponseInterceptor hs this) = baseHeaders this
  ∧ baseOptions (fold_left addResponseInterceptor hs this) = baseOptions this
  ∧ baseThrower (fold_left addResponseInterceptor hs this) = baseThrower this.
Proof.
  revert this. induction hs as [|h hs IH]; intros this; cbn [fold_left].
  - by rewrite app_nil_r.
  - destruct (IH (addResponseInterceptor this h)) as (-> & -> & -> & -> & -> & ->).
    cbn. by rewrite <- app_assoc.
Qed.

(** X12. Registration is append-only: after any number of registrations
    the handlers registered before keep their places and the new ones
    follow in the order they were registered; registering a handler of
    one kind leaves the other list and the configuration untouched, so
    the two kinds can be registered in either order; and the constructed
    request is the same as before. *)
Theorem registration_is_append_only (this : Fetcher)
    (hs : list (@InterceptorHandler Exn Request))
    (gs : list (@InterceptorHandler Exn Ctx)) :
  requestInterceptors (fold_left addRequestInterceptor hs this)
    = (requestInterceptors this ++ hs)%list
  ∧ responseInterceptors (fold_left addRequestInterceptor hs this)
    = responseInterceptors this
  ∧ responseInterceptors (fold_left addResponseInterceptor gs this)
    = (responseInterceptors this ++ gs)%list
  ∧ requestInterceptors (fold_left addResponseInterceptor gs this)
    = requestInterceptors this
  ∧ fold_left addResponseInterceptor gs (fold_left addRequestInterceptor hs this)
    = fold_left addRequestInterceptor hs (fold_left addResponseInterceptor gs this)
  ∧ (∀ u params,
       rawRequest (fold_left addResponseInterceptor gs
                     (fold_left addRequestInterceptor hs this)) u params
       = rawRequest this u params).
Proof.
  destruct (register_requests_fields this hs) as (H1 & H2 & H3 & H4 & H5 & H6).
  destruct (register_responses_fields this gs) as (G1 & G2 & G3 & G4 & G5 & G6).
  destruct (register_responses_fields (fold_left addRequestInterceptor hs this) gs)
    as (A1 & A2 & A3 & A4 & A5 & A6).
  destruct (register_requests_fields (fold_left addResponseInterceptor gs this) hs)
    as (B1 & B2 & B3 & B4 & B5 & B6).
  split; [done|]. split; [done|]. split; [done|]. split; [done|]. split.
  - destruct (fold_left addResponseInterceptor gs
                (fold_left addRequestInterceptor hs this)) as [a1 a2 a3 a4 a5 a6].
    destruct (fold_left addRequestInterceptor hs
                (fold_left addResponseInterceptor gs this)) as [b1 b2 b3 b4 b5 b6].
    cbn in *. congruence.
  - intros u params. unfold rawRequest, mergedHeaders, mergedOptions.
    by rewrite A3, A4, A5, H3, H4, H5.
Qed.

(** *** The verb methods and the constructor *)

Lemma spreadOptional_some (o : @Options JsValue) : spreadOptional (Some o) = o.
Proof.
  destruct o as [h m]. unfold spreadOptional, spreadOptions. cbn.
  f_equal; [by destruct h | apply (right_id_L ∅ (∪))].
Qed.

(** X13. The per-call options of a verb method reach [action] unchanged,
    and leaving them out is the same as passing empty options; so each
    verb is [action] at its method, its data and the options given. *)
Theorem verb_options_are_passed_unchanged (this : Fetcher) (u : string)
    (data : JsValue) :
  (∀ o, get this u (Some o)
        = action this u {| ap_method := GET; ap_body := undefined; ap_rest := o |})
  ∧ (∀ o, post this u data (Some o)
          = action this u {| ap_method := POST; ap_body := data; ap_rest := o |})
  ∧ (∀ o, patch this u data (Some o)
          = action this u {| ap_method := PATCH; ap_body := data; ap_rest := o |})
  ∧ (∀ o, put this u data (Some o)
          = action this u {| ap_method := PUT; ap_body := data; ap_rest := o |})
  ∧ (∀ o, delete_ this u data (Some o)
          = action this u {| ap_method := DELETE; ap_body := data; ap_rest := o |})
  ∧ get this u None = get this u (Some noOptions)
  ∧ post this u data None = post this u data (Some noOptions)
  ∧ patch this u data None = patch this u data (Some noOptions)
  ∧ put this u data None = put this u data (Some noOptions)
  ∧ delete_ this u data None = delete_ this u data (Some noOptions).
Proof.
  unfold get, post, patch, put, delete_.
  repeat split; intros; by rewrite ?spreadOptional_some.
Qed.

(** X14. A client constructed with a [baseError] uses it in place of the
    default factory: on a non-success answer the call is rejected with
    what [baseError] returns for the response and the request that was
    sent. Constructed without one, the error carries the request's URL
    and the response's status. Either way a new client makes two calls,
    the send and the factory. *)
Theorem configured_error_factory_is_used (cfg : @FetcherConfig JsValue)
    (u : string) (params : ActionParams) (response : Response) :
  let this : Fetcher := new_Fetcher (Some cfg) in
  fetch (rawRequest this u params) = Normal response →
  Spec.nonSuccess response →
  calls (action this u params)
    = [CallFetch (rawRequest this u params);
       CallErrorFactory response (rawRequest this u params)]
  ∧ (∀ f, cfg_baseError cfg = Some f →
       outcome (action this u params)
       = Rejected (FromFactory (f response (rawRequest this u params))))
  ∧ (cfg_baseError cfg = None →
     outcome (action this u params)
     = Rejected (FromFactory {| err_url := url (rawRequest this u params);
                                err_statusCode := status response |})).
Proof.
  intros this Hfetch Hbad. apply nonSuccess_ok in Hbad.
  assert (Hreq : requestHandler this (rawRequest this u params)
                 = ret (rawRequest this u params)) by reflexivity.
  assert (Hresp : responseHandler this (dispatch (rawRequest this u params))
                    (clone (rawRequest this u params))
                  = ([CallFetch (rawRequest this u params)], Fulfilled response)).
  { unfold responseHandler. by rewrite Hfetch. }
  rewrite action_outcome, action_calls, Hreq.
  cbn [ret outcome calls fst snd app]. rewrite Hresp.
  cbn [outcome calls fst snd app]. rewrite settle_failure by done.
  cbn [outcome calls fst snd]. unfold clone.
  split; [done|]. split.
  - intros f Hf. subst this. cbn. by rewrite Hf.
  - intros Hnone. subst this. cbn. by rewrite Hnone.
Qed.


End PipelineMore.

(** ** The further facts at concrete calls *)

(** [tag], [refuse], [tag]: the second handler throws on the tagged
    request, the third is not called and nothing is sent. *)
Lemma request_interceptor_failure_stops_the_call_witness :
  outcome (Demo.run Scenario.guarded "/test" Demo.getParams)
    = Rejected (Foreign "denied")
  ∧ length (calls (Demo.run Scenario.guarded "/test" Demo.getParams)) = 2
  ∧ List.filter isFetchCall (calls (Demo.run Scenario.guarded "/test" Demo.getParams))
    = [].
Proof.
  destruct (Demo.tag (Demo.build Scenario.guarded "/test" Demo.getParams))
    as [tagged|] eqn:Htag; [|discriminate Htag].
  injection Htag as Htag.
  pose proof (request_interceptor_failure_stops_the_call (platform := Demo.platform)
    Scenario.guarded "/test" Demo.getParams [Demo.tag] Scenario.refuse [Demo.tag]
    tagged "denied" eq_refl) as H.
  rewrite <- Htag in H. destruct (H eq_refl eq_refl) as (Hout & Hcalls & Hsend).
  split; [exact Hout|]. split; [|exact Hsend].
  unfold Demo.run. rewrite Hcalls. reflexivity.
Defined.

(** A [get] through a transport whose [fetch] rejects. *)
Lemma transport_failure_is_passed_on_witness :
  outcome (action (platform := Scenario.offline) Demo.tagged "/test" Demo.getParams)
    = Rejected (Foreign "network down")
  ∧ length (calls (action (platform := Scenario.offline) Demo.tagged "/test"
                     Demo.getParams)) = 2.
Proof.
  destruct (transport_failure_is_passed_on (platform := Scenario.offline)
    Demo.tagged "/test" Demo.getParams _ "network down" eq_refl eq_refl)
    as (Hout & Hcalls).
  split; [exact Hout|]. rewrite Hcalls. reflexivity.
Defined.

(** [spoil], [choke], [recover] on a 200 answer: the second handler throws
    on the 404 the first one substituted; neither [recover] nor the error
    factory runs. *)
Lemma response_interceptor_failure_stops_the_call_witness :
  outcome (Demo.run Scenario.choking "/users" Demo.getParams)
    = Rejected (Foreign "boom")
  ∧ length (calls (Demo.run Scenario.choking "/users" Demo.getParams)) = 3
  ∧ List.filter isFactoryCall (calls (Demo.run Scenario.choking "/users" Demo.getParams))
    = [].
Proof.
  destruct (response_interceptor_failure_stops_the_call (platform := Demo.platform)
    Scenario.choking "/users" Demo.getParams
    (Demo.build Demo.client "/users" Demo.getParams) Demo.jsonOk
    [Demo.spoil] Scenario.choke [Demo.recover]
    {| ctx_request := Demo.build Demo.client "/users" Demo.getParams;
       ctx_response := Demo.notFound |}
    "boom" eq_refl eq_refl eq_refl eq_refl eq_refl)
    as (Hout & Hcalls & Hfactory & _).
  split; [exact Hout|]. split; [|exact Hfactory].
  unfold Demo.run. rewrite Hcalls. reflexivity.
Defined.

(** A fulfilled [get], a [get] rejected by the factory, and a [get] that
    sends nothing. *)
Lemma at_most_one_send_and_one_closing_call_witness :
  length (List.filter isReaderCall (calls (Demo.run Demo.client "/users" Demo.getParams)))
    = 1
  ∧ length (List.filter isFactoryCall
              (calls (Demo.run Demo.client "/missing" Demo.getParams))) = 1
  ∧ List.filter isReaderCall (calls (Demo.run Scenario.guarded "/test" Demo.getParams))
    = [].
Proof.
  destruct (at_most_one_send_and_one_closing_call (platform := Demo.platform)
    Demo.client "/users" Demo.getParams) as (_ & _ & _ & Hok & _).
  destruct (at_most_one_send_and_one_closing_call (platform := Demo.platform)
    Demo.client "/missing" Demo.getParams) as (_ & _ & _ & _ & Hbad).
  destruct (at_most_one_send_and_one_closing_call (platform := Demo.platform)
    Scenario.guarded "/test" Demo.getParams) as (_ & _ & Hnone & _).
  split; [exact (proj1 (Hok _ eq_refl))|].
  split; [exact (proj1 (Hbad _ eq_refl)) | exact (proj2 (Hnone eq_refl))].
Defined.

(** One interceptor of each kind around a [get] that a handler rescues:
    [tag] at position 0 on the constructed request, [recover] at position
    0 on the clone and the 404; four calls in all. And [tag], [refuse],
    [tag]: the chain stops at position 1. *)
Lemma every_interceptor_runs_once_in_order_witness :
  List.filter isRequestInterceptorCall
    (calls (Demo.run Scenario.both "/missing" Demo.getParams))
    = [CallRequestInterceptor 0 (Demo.build Demo.client "/missing" Demo.getParams)]
  ∧ (∃ sent,
       Demo.tag (Demo.build Demo.client "/missing" Demo.getParams) = Normal sent
       ∧ List.filter isResponseInterceptorCall
           (calls (Demo.run Scenario.both "/missing" Demo.getParams))
         = [CallResponseInterceptor 0
              {| ctx_request := sent; ctx_response := Demo.notFound |}])
  ∧ length (calls (Demo.run Scenario.both "/missing" Demo.getParams)) = 4
  ∧ length (List.filter isRequestInterceptorCall
              (calls (Demo.run Scenario.guarded "/test" Demo.getParams))) = 2.
Proof.
  destruct (every_interceptor_runs_once_in_order (platform := Demo.platform)
    Scenario.both "/missing" Demo.getParams) as (Hreq & _ & Hresp & Hdone).
  destruct (every_interceptor_runs_once_in_order (platform := Demo.platform)
    Scenario.guarded "/test" Demo.getParams) as (Hstop & _).
  split; [exact Hreq|]. split; [|split].
  - eexists. split; [reflexivity|].
    exact (proj1 (proj2 (Hresp _ Demo.notFound eq_refl eq_refl))).
  - exact (proj2 (proj2 (Hdone _ eq_refl (or_introl (ex_intro _ _ eq_refl))))).
  - unfold Demo.run. rewrite Hstop. reflexivity.
Defined.

(** White space only. *)
Lemma normalizeUrl_result_shape_witness :
  JsString.allWhiteSpace "   " = true ∧ normalizeUrl "   " = "/".
Proof.
  split; [reflexivity|].
  exact (proj2 (proj2 (proj2 (proj2 (normalizeUrl_result_shape "   ")))) eq_refl).
Defined.

(** A path between blanks. *)
Lemma normalizeUrl_ignores_surrounding_white_space_witness :
  Spec.trimmed "  users/1  " "users/1"
  ∧ normalizeUrl "  users/1  " = normalizeUrl "users/1".
Proof.
  assert (H : Spec.trimmed "  users/1  " "users/1").
  { exists "  ", "  ". repeat split. }
  split; [exact H|].
  exact (normalizeUrl_ignores_surrounding_white_space _ _ H).
Defined.

(** The repository's first test: [baseUrl] [http://localhost], path
    [/test]. *)
Lemma absolute_base_url_is_kept_witness :
  Spec.beginsWith "http" (baseUrl Demo.client)
  ∧ url (Demo.build Demo.client "/test" Demo.getParams) = "http://localhost/test"
  ∧ url (Demo.build Demo.client "test " Demo.getParams) = "http://localhosttest".
Proof.
  assert (H : Spec.beginsWith "http" (baseUrl Demo.client))
    by (by exists "://localhost").
  split; [exact H|]. split.
  - exact (proj2 (absolute_base_url_is_kept (platform := Demo.platform)
      Demo.client "/test" Demo.getParams H) eq_refl).
  - exact (proj1 (absolute_base_url_is_kept (platform := Demo.platform)
      Demo.client "test " Demo.getParams H)).
Defined.

(** A pass-through handler of each kind on a call that fails with 404. *)
Lemma pass_through_interceptor_is_transparent_witness :
  outcome (Demo.run (addRequestInterceptor Demo.client Scenario.passRequest)
             "/missing" Demo.getParams)
    = outcome (Demo.run Demo.client "/missing" Demo.getParams)
  ∧ outcome (Demo.run (addResponseInterceptor Demo.client Scenario.passCtx)
               "/missing" Demo.getParams)
    = outcome (Demo.run Demo.client "/missing" Demo.getParams).
Proof.
  destruct (pass_through_interceptor_is_transparent (platform := Demo.platform)
    Demo.client "/missing" Demo.getParams) as [Hreq Hresp].
  split.
  - exact (proj1 (Hreq Scenario.passRequest (fun r => eq_refl))).
  - exact (proj1 (Hresp Scenario.passCtx (fun c => eq_refl))).
Defined.

(** An [Authorization] header placed inside [baseOptions] is not sent. *)
Lemma request_ignores_headers_in_base_options_witness :
  opt_headers (baseOptions Scenario.misplaced)
    = Some (HeadersRecord {[ "Authorization" := "Bearer t" ]})
  ∧ Demo.build Scenario.misplaced "/test" Demo.override
    = Demo.build Demo.keyedClient "/test" Demo.override
  ∧ req_headers (Demo.build Scenario.misplaced "/test" Demo.override)
      !! "Authorization" = None.
Proof.
  split; [reflexivity|].
  pose proof (request_ignores_headers_in_base_options (platform := Demo.platform)
    Scenario.misplaced Demo.keyedClient "/test" Demo.override
    eq_refl eq_refl eq_refl) as H.
  split; [exact H|]. unfold Demo.build. rewrite H. reflexivity.
Defined.

(** The repository's custom-error test, on a 404. *)
Lemma configured_error_factory_is_used_witness :
  Spec.nonSuccess Demo.notFound
  ∧ outcome (Demo.run (new_Fetcher (Some Scenario.customConfig)) "/missing"
               Demo.getParams)
    = Rejected (FromFactory {| err_url := "custom:http://localhost/missing";
                               err_statusCode := 1404 |}).
Proof.
  assert (Hbad : Spec.nonSuccess Demo.notFound) by (right; reflexivity).
  split; [exact Hbad|].
  exact (proj1 (proj2 (configured_error_factory_is_used (platform := Demo.platform)
    Scenario.customConfig "/missing" Demo.getParams Demo.notFound eq_refl Hbad))
    Scenario.customError eq_refl).
Defined.

